(** * ctrq: a thin HTTP client over libctru's httpc service

    A shallow embedding of [ctrq.hpp] and the properties of its request
    life cycle: the ordered preparation of a request context, the
    short-circuit on the first failing step, and the lazy accessors of the
    [response] class.

    The platform library (libctru, [<3ds.h>]) is not part of the repository.
    It is modelled as a deterministic transport that answers every call from
    the history of the calls made so far; the history doubles as the call log
    against which the "is never invoked" properties are stated. *)

From Stdlib Require Import ZArith List String Ascii Bool Lia.
From Stdlib.Strings Require Import Byte.
Import ListNotations.

Local Open Scope string_scope.
Local Open Scope list_scope.
Local Open Scope Z_scope.

(* ================================================================= *)
(** ** The platform: libctru's httpc interface *)

Module Ctru.

(** [Result] is libctru's signed 32-bit result code, [u32] and [u8] its
    unsigned integers; [httpcContext] is the opaque context structure,
    represented here by the handle it holds. *)
Definition Result := Z.
Definition u32 := Z.
Definition u8 := byte.
Definition httpcContext := Z.

Inductive HTTPC_RequestMethod : Type :=
| HTTPC_METHOD_GET
| HTTPC_METHOD_POST
| HTTPC_METHOD_PUT
| HTTPC_METHOD_DELETE.

Inductive HTTPC_KeepAlive : Type :=
| HTTPC_KEEPALIVE_DISABLED
| HTTPC_KEEPALIVE_ENABLED.

Inductive SSLC_Opt : Type :=
| SSLCOPT_DisableVerify.

(** One entry of the call log: the function of the httpc interface that was
    called, with the arguments it was given.  Output arguments (the context
    written by [httpcOpenContext], the status word, the receive buffers) are
    not part of the entry. *)
Inductive call : Type :=
| CallOpenContext (method : HTTPC_RequestMethod) (url : string)
                  (use_defaultproxy : Z)
| CallSetSSLOpt (ctx : httpcContext) (opt : SSLC_Opt)
| CallAddRequestHeaderField (ctx : httpcContext) (name value : string)
| CallSetKeepAlive (ctx : httpcContext) (option : HTTPC_KeepAlive)
| CallBeginRequest (ctx : httpcContext)
| CallGetResponseStatusCode (ctx : httpcContext)
| CallAddPostDataRaw (ctx : httpcContext) (data : list u8) (len : u32)
| CallAddPostDataAscii (ctx : httpcContext) (name value : string)
| CallDownloadData (ctx : httpcContext) (size : u32)
| CallGetResponseHeader (ctx : httpcContext) (name : string) (size : u32)
| CallCloseContext (ctx : httpcContext).

Definition log := list call.

(** What [ctrq.hpp] takes from [<3ds.h>].  [R_FAILED] is the macro that
    classifies a result code, [HTTPC_RESULTCODE_DOWNLOADPENDING] the code
    (already converted to [s32]) that [httpcDownloadData] returns while data
    remains.  The other fields are the transport itself: each one is given
    the log including the call being answered.
    - [ret] is the result code of the call;
    - [out_context] is the context left by [httpcOpenContext];
    - [out_status] is the word left in [*out] by
      [httpcGetResponseStatusCode];
    - [out_download] is the receive buffer and [*downloadedsize] left by
      [httpcDownloadData];
    - [out_header] is the buffer left by [httpcGetResponseHeader].
    Output arguments are in-out: each field receives the value the argument
    had before the call. *)
Record httpc : Type := {
  R_FAILED : Result -> bool;
  HTTPC_RESULTCODE_DOWNLOADPENDING : Result;
  ret : log -> Result;
  out_context : log -> httpcContext -> httpcContext;
  out_status : log -> u32 -> u32;
  out_download : log -> list u8 -> u32 -> list u8 * u32;
  out_header : log -> list u8 -> list u8
}.

End Ctru.

Import Ctru.

(* ================================================================= *)
(** ** C strings *)

(** [std::string::c_str()] handed to a C interface: the callee reads up to the
    first NUL character. *)
Fixpoint c_str (s : string) : string :=
  match s with
  | EmptyString => EmptyString
  | String c s' => if Ascii.eqb c Ascii.zero then EmptyString
                   else String c (c_str s')
  end.

(** [std::string(const char* )] on a character buffer: the characters before
    the first NUL. *)
Fixpoint string_of_c_buffer (buffer : list u8) : string :=
  match buffer with
  | [] => EmptyString
  | b :: buffer' => if Byte.eqb b x00 then EmptyString
                    else String (ascii_of_byte b) (string_of_c_buffer buffer')
  end.

(** [std::string(const char*, size_t)] on the whole of a byte vector: every
    byte is kept, NUL included. *)
Definition string_of_data (data : list u8) : string :=
  string_of_list_byte data.

(* ================================================================= *)
(** ** The call monad *)

(** Code that calls the transport threads the call log. *)
Definition M (A : Type) : Type := log -> A * log.

Definition mret {A : Type} (a : A) : M A := fun w => (a, w).

Definition mbind {A B : Type} (m : M A) (k : A -> M B) : M B :=
  fun w => let (a, w') := m w in k a w'.

Declare Scope ctrq_scope.
Delimit Scope ctrq_scope with ctrq.
Notation "x <- m ;; k" := (mbind m (fun x => k))
  (at level 61, m at next level, right associativity) : ctrq_scope.
Notation "' pat <- m ;; k" := (mbind m (fun x => match x with pat => k end))
  (at level 61, pat pattern, m at next level, right associativity) : ctrq_scope.
Local Open Scope ctrq_scope.

(* ================================================================= *)
(** ** ctrq.hpp *)

Module Ctrq.

Definition CTRQ_USER_AGENT : string := "ctrq/0.0.1".
Definition CTRQ_HEADER_BUFFER_SIZE : Z := 4 * 1024.
Definition CTRQ_DOWNLOAD_BUFFER_SIZE : Z := 0x1000.

Inductive httpc_failure : Type :=
| NONE
| OPEN_CONTEXT
| DISABLE_SSL_VERIFY
| SET_KEEP_ALIVE
| SET_KEEP_ALIVE_HEADER
| SET_USER_AGENT
| SET_HEADER
| BEGIN_REQUEST
| GET_RESPONSE_STATUS_CODE
| ADD_RAW_POST_DATA
| ADD_ASCII_POST_PARAM.

(** [class response], private members first. *)
Record response : Type := mk_response {
  http_context_closed : bool;
  body : list u8;
  body_populated : bool;
  body_string : string;
  body_string_populated : bool;
  status : u32;
  result : Result;
  failure : httpc_failure;
  context : httpcContext
}.

(** [response res;]: the member initialisers of the class.  [context] has
    none, so the fresh object holds whatever was there ([ctx0]). *)
Definition new_response (ctx0 : httpcContext) : response :=
  {| http_context_closed := false;
     body := [];
     body_populated := false;
     body_string := "";
     body_string_populated := false;
     status := 0;
     result := 0;
     failure := NONE;
     context := ctx0 |}.

Definition set_body (res : response) (v : list u8) : response :=
  mk_response (http_context_closed res) v (body_populated res)
    (body_string res) (body_string_populated res) (status res) (result res)
    (failure res) (context res).

Definition set_body_populated (res : response) (v : bool) : response :=
  mk_response (http_context_closed res) (body res) v
    (body_string res) (body_string_populated res) (status res) (result res)
    (failure res) (context res).

Definition set_body_string (res : response) (v : string) : response :=
  mk_response (http_context_closed res) (body res) (body_populated res)
    v (body_string_populated res) (status res) (result res)
    (failure res) (context res).

Definition set_status (res : response) (v : u32) : response :=
  mk_response (http_context_closed res) (body res) (body_populated res)
    (body_string res) (body_string_populated res) v (result res)
    (failure res) (context res).

Definition set_result (res : response) (v : Result) : response :=
  mk_response (http_context_closed res) (body res) (body_populated res)
    (body_string res) (body_string_populated res) (status res) v
    (failure res) (context res).

Definition set_failure (res : response) (v : httpc_failure) : response :=
  mk_response (http_context_closed res) (body res) (body_populated res)
    (body_string res) (body_string_populated res) (status res) (result res)
    v (context res).

Definition set_context (res : response) (v : httpcContext) : response :=
  mk_response (http_context_closed res) (body res) (body_populated res)
    (body_string res) (body_string_populated res) (status res) (result res)
    (failure res) v.

(** [std::map<std::string, std::string>], as the sequence of entries its
    iterator visits; a null [headers] pointer is [None]. *)
Definition string_map : Type := list (string * string).

Section WithPlatform.

Variable P : httpc.

(** *** The transport's entry points *)

Definition invoke (c : call) : M Result :=
  fun w => let w' := w ++ [c] in (ret P w', w').

Definition httpcOpenContext (ctx : httpcContext)
    (method : HTTPC_RequestMethod) (url : string) (use_defaultproxy : Z)
  : M (Result * httpcContext) :=
  fun w => let w' := w ++ [CallOpenContext method url use_defaultproxy] in
           ((ret P w', out_context P w' ctx), w').

Definition httpcSetSSLOpt (ctx : httpcContext) (opt : SSLC_Opt) : M Result :=
  invoke (CallSetSSLOpt ctx opt).

Definition httpcAddRequestHeaderField (ctx : httpcContext)
    (name value : string) : M Result :=
  invoke (CallAddRequestHeaderField ctx name value).

Definition httpcSetKeepAlive (ctx : httpcContext)
    (option : HTTPC_KeepAlive) : M Result :=
  invoke (CallSetKeepAlive ctx option).

Definition httpcBeginRequest (ctx : httpcContext) : M Result :=
  invoke (CallBeginRequest ctx).

Definition httpcGetResponseStatusCode (ctx : httpcContext) (out : u32)
  : M (Result * u32) :=
  fun w => let w' := w ++ [CallGetResponseStatusCode ctx] in
           ((ret P w', out_status P w' out), w').

Definition httpcAddPostDataRaw (ctx : httpcContext) (data : list u8)
    (len : u32) : M Result :=
  invoke (CallAddPostDataRaw ctx data len).

Definition httpcAddPostDataAscii (ctx : httpcContext)
    (name value : string) : M Result :=
  invoke (CallAddPostDataAscii ctx name value).

Definition httpcDownloadData (ctx : httpcContext) (buffer : list u8)
    (size : u32) (downloadedsize : u32)
  : M (Result * (list u8 * u32)) :=
  fun w => let w' := w ++ [CallDownloadData ctx size] in
           ((ret P w', out_download P w' buffer downloadedsize), w').

Definition httpcGetResponseHeader (ctx : httpcContext) (name : string)
    (buffer : list u8) (size : u32) : M (Result * list u8) :=
  fun w => let w' := w ++ [CallGetResponseHeader ctx name size] in
           ((ret P w', out_header P w' buffer), w').

Definition httpcCloseContext (ctx : httpcContext) : M Result :=
  invoke (CallCloseContext ctx).

(** *** class response *)

Definition has_failed (res : response) : bool := R_FAILED P (result res).

Definition get_header (res : response) (header : string)
  : M (string * response) :=
  let buffer := repeat x00 (Z.to_nat CTRQ_HEADER_BUFFER_SIZE) in
  if http_context_closed res then mret ("", res)
  else
    '(_, buffer) <- httpcGetResponseHeader (context res) (c_str header)
                      buffer CTRQ_HEADER_BUFFER_SIZE ;;
    mret (string_of_c_buffer buffer, res).

(** The [do ... while] of [get_body].  The loop runs for as long as the
    transport answers "download pending"; [fuel] bounds the number of
    rounds, and [None] means the bound was reached.  [std::copy] appends
    the first [downloaded_size] bytes of the buffer. *)
Fixpoint get_body_loop (fuel : nat) (res : response) (buffer : list u8)
    (downloaded_size : u32) (w : log) : option (response * log) :=
  match fuel with
  | O => None
  | S fuel' =>
      let '((r, (buffer', downloaded_size')), w') :=
        httpcDownloadData (context res) buffer CTRQ_DOWNLOAD_BUFFER_SIZE
          downloaded_size w in
      let res' :=
        set_body (set_result res r)
          (body res ++ firstn (Z.to_nat downloaded_size') buffer') in
      if r =? HTTPC_RESULTCODE_DOWNLOADPENDING P
      then get_body_loop fuel' res' buffer' downloaded_size' w'
      else Some (res', w')
  end.

Definition get_body (fuel : nat) (res : response) (w : log)
  : option (list u8 * response * log) :=
  let buffer := repeat x00 (Z.to_nat CTRQ_DOWNLOAD_BUFFER_SIZE) in
  let downloaded_size := 0 in
  if body_populated res || http_context_closed res
  then Some (body res, res, w)
  else
    match get_body_loop fuel res buffer downloaded_size w with
    | None => None
    | Some (res', w') =>
        let res'' := set_body_populated res' true in
        Some (body res'', res'', w')
    end.

Definition get_body_string (fuel : nat) (res : response) (w : log)
  : option (string * response * log) :=
  if http_context_closed res || body_string_populated res
  then Some (body_string res, res, w)
  else
    match get_body fuel res w with
    | None => None
    | Some (body, res', w') =>
        let res'' := set_body_string res' (string_of_data body) in
        Some (body_string res'', res'', w')
    end.

Definition close_context (res : response) : M response :=
  if negb (http_context_closed res)
  then _ <- httpcCloseContext (context res) ;; mret res
  else mret res.

(** [~response()] *)
Definition destroy (res : response) : M response := close_context res.

(** *** Free functions *)

Fixpoint add_headers_loop (ctx : httpcContext) (entries : string_map)
  : M Result :=
  match entries with
  | [] => mret 0
  | (first, second) :: rest =>
      r <- httpcAddRequestHeaderField ctx (c_str first) (c_str second) ;;
      if R_FAILED P r then mret r else add_headers_loop ctx rest
  end.

Definition add_headers (ctx : httpcContext) (headers : option string_map)
  : M Result :=
  match headers with
  | None => mret 0
  | Some entries => add_headers_loop ctx entries
  end.

(** [_CTRQ_FALSE_IF_FAILED(fail, eval)], after [result = (eval)]: on a
    failure the step and the code are recorded and the function returns
    [false]; otherwise the rest of the function, [k], runs. *)
Definition _CTRQ_FALSE_IF_FAILED (res : response) (fail : httpc_failure)
    (r : Result) (k : M (bool * response)) : M (bool * response) :=
  if R_FAILED P r
  then mret (false, set_result (set_failure res fail) r)
  else k.

Definition perform_request (res : response) : M (bool * response) :=
  r <- httpcBeginRequest (context res) ;;
  _CTRQ_FALSE_IF_FAILED res BEGIN_REQUEST r (
    '(r, st) <- httpcGetResponseStatusCode (context res) (status res) ;;
    let res := set_status res st in
    _CTRQ_FALSE_IF_FAILED res GET_RESPONSE_STATUS_CODE r (
      mret (true, res))).

Definition setup_context (res : response) (url : string)
    (method : HTTPC_RequestMethod) (headers : option string_map)
    (default_proxy : Z) (disable_ssl_verification keep_alive : bool)
  : M (bool * response) :=
  '(r, ctx) <- httpcOpenContext (context res) HTTPC_METHOD_GET (c_str url)
                 default_proxy ;;
  let res := set_context res ctx in
  _CTRQ_FALSE_IF_FAILED res OPEN_CONTEXT r (
    (if disable_ssl_verification
     then fun k =>
            r <- httpcSetSSLOpt (context res) SSLCOPT_DisableVerify ;;
            _CTRQ_FALSE_IF_FAILED res DISABLE_SSL_VERIFY r k
     else fun k => k) (
    r <- httpcAddRequestHeaderField (context res) "User-Agent"
           CTRQ_USER_AGENT ;;
    _CTRQ_FALSE_IF_FAILED res SET_USER_AGENT r (
    r <- add_headers (context res) headers ;;
    _CTRQ_FALSE_IF_FAILED res SET_HEADER r (
    r <- httpcSetKeepAlive (context res)
           (if keep_alive then HTTPC_KEEPALIVE_ENABLED
            else HTTPC_KEEPALIVE_DISABLED) ;;
    _CTRQ_FALSE_IF_FAILED res SET_KEEP_ALIVE r (
    if keep_alive
    then
      r <- httpcAddRequestHeaderField (context res) "Connection"
             "Keep-Alive" ;;
      _CTRQ_FALSE_IF_FAILED res SET_KEEP_ALIVE_HEADER r (
        mret (true, res))
    else mret (true, res)))))).

Definition get (ctx0 : httpcContext) (url : string)
    (headers : option string_map) (default_proxy : Z)
    (disable_ssl_verification keep_alive : bool) : M response :=
  let res := new_response ctx0 in
  '(ok, res) <- setup_context res url HTTPC_METHOD_GET headers
                  default_proxy disable_ssl_verification keep_alive ;;
  if negb ok then mret res
  else
    '(_, res) <- perform_request res ;;
    mret res.

Definition add_raw_post_data (res : response) (data : list u8)
    (length : u32) : M (bool * response) :=
  r <- httpcAddPostDataRaw (context res) data length ;;
  let res := set_result res r in
  if R_FAILED P r
  then mret (false, set_failure res ADD_RAW_POST_DATA)
  else mret (true, res).

(** [post(url, const u8* body, size_t length, ...)] *)
Definition post (ctx0 : httpcContext) (url : string) (body : list u8)
    (length : Z) (headers : option string_map) (default_proxy : Z)
    (disable_ssl_verification keep_alive : bool) : M response :=
  let res := new_response ctx0 in
  '(ok, res) <- setup_context res url HTTPC_METHOD_POST headers
                  default_proxy disable_ssl_verification keep_alive ;;
  if negb ok then mret res
  else
    '(ok, res) <- add_raw_post_data res body length ;;
    if negb ok then mret res
    else
      '(_, res) <- perform_request res ;;
      mret res.

(** [post(url, const std::vector<u8>& body, ...)] *)
Definition post_vector (ctx0 : httpcContext) (url : string)
    (body : list u8) (headers : option string_map) (default_proxy : Z)
    (disable_ssl_verification keep_alive : bool) : M response :=
  post ctx0 url body (Z.of_nat (List.length body)) headers default_proxy
    disable_ssl_verification keep_alive.

(** [post(url, const std::string& body, ...)] *)
Definition post_string (ctx0 : httpcContext) (url : string)
    (body : string) (headers : option string_map) (default_proxy : Z)
    (disable_ssl_verification keep_alive : bool) : M response :=
  post ctx0 url (list_byte_of_string body)
    (Z.of_nat (String.length body)) headers default_proxy
    disable_ssl_verification keep_alive.

Definition add_ascii_post_param (res : response) (field value : string)
  : M (bool * response) :=
  r <- httpcAddPostDataAscii (context res) field value ;;
  let res := set_result res r in
  if R_FAILED P r
  then mret (false, set_failure res ADD_ASCII_POST_PARAM)
  else mret (true, res).

Fixpoint add_ascii_post_params (res : response) (params : string_map)
  : M (bool * response) :=
  match params with
  | [] => mret (true, res)
  | (first, second) :: rest =>
      '(ok, res) <- add_ascii_post_param res (c_str first)
                      (c_str second) ;;
      if negb ok then mret (false, res)
      else add_ascii_post_params res rest
  end.

(** [post(url, const std::map<std::string, std::string>& params, ...)] *)
Definition post_params (ctx0 : httpcContext) (url : string)
    (params : string_map) (headers : option string_map)
    (default_proxy : Z) (disable_ssl_verification keep_alive : bool)
  : M response :=
  let res := new_response ctx0 in
  '(ok, res) <- setup_context res url HTTPC_METHOD_POST headers
                  default_proxy disable_ssl_verification keep_alive ;;
  if negb ok then mret res
  else
    '(ok, res) <- add_ascii_post_params res params ;;
    if negb ok then mret res
    else
      '(_, res) <- perform_request res ;;
      mret res.

(** [put(url, const u8* body, size_t length, ...)] *)
Definition put (ctx0 : httpcContext) (url : string) (body : list u8)
    (length : Z) (headers : option string_map) (default_proxy : Z)
    (disable_ssl_verification keep_alive : bool) : M response :=
  let res := new_response ctx0 in
  '(ok, res) <- setup_context res url HTTPC_METHOD_PUT headers
                  default_proxy disable_ssl_verification keep_alive ;;
  if negb ok then mret res
  else
    '(ok, res) <- add_raw_post_data res body length ;;
    if negb ok then mret res
    else
      '(_, res) <- perform_request res ;;
      mret res.

(** [put(url, const std::vector<u8>& body, ...)] *)
Definition put_vector (ctx0 : httpcContext) (url : string)
    (body : list u8) (headers : option string_map) (default_proxy : Z)
    (disable_ssl_verification keep_alive : bool) : M response :=
  put ctx0 url body (Z.of_nat (List.length body)) headers default_proxy
    disable_ssl_verification keep_alive.

(** [put(url, const std::string& body, ...)] *)
Definition put_string (ctx0 : httpcContext) (url : string)
    (body : string) (headers : option string_map) (default_proxy : Z)
    (disable_ssl_verification keep_alive : bool) : M response :=
  put ctx0 url (list_byte_of_string body)
    (Z.of_nat (String.length body)) headers default_proxy
    disable_ssl_verification keep_alive.

(** [put(url, const std::map<std::string, std::string>& params, ...)] *)
Definition put_params (ctx0 : httpcContext) (url : string)
    (params : string_map) (headers : option string_map)
    (default_proxy : Z) (disable_ssl_verification keep_alive : bool)
  : M response :=
  let res := new_response ctx0 in
  '(ok, res) <- setup_context res url HTTPC_METHOD_PUT headers
                  default_proxy disable_ssl_verification keep_alive ;;
  if negb ok then mret res
  else
    '(ok, res) <- add_ascii_post_params res params ;;
    if negb ok then mret res
    else
      '(_, res) <- perform_request res ;;
      mret res.

Definition deleet (ctx0 : httpcContext) (url : string)
    (headers : option string_map) (default_proxy : Z)
    (disable_ssl_verification keep_alive : bool) : M response :=
  let res := new_response ctx0 in
  '(ok, res) <- setup_context res url HTTPC_METHOD_DELETE headers
                  default_proxy disable_ssl_verification keep_alive ;;
  if negb ok then mret res
  else
    '(_, res) <- perform_request res ;;
    mret res.

End WithPlatform.

End Ctrq.

Import Ctrq.

(* ================================================================= *)
(** ** Vocabulary of the specification *)

(** The public operations, as one tagged value per entry point, and the
    method each one is invoked with. *)
Inductive operation : Type :=
| OpGet
| OpPost (body : list u8) (length : Z)
| OpPostVector (body : list u8)
| OpPostString (body : string)
| OpPostParams (params : string_map)
| OpPut (body : list u8) (length : Z)
| OpPutVector (body : list u8)
| OpPutString (body : string)
| OpPutParams (params : string_map)
| OpDelete.

Definition method_of (op : operation) : HTTPC_RequestMethod :=
  match op with
  | OpGet => HTTPC_METHOD_GET
  | OpPost _ _ | OpPostVector _ | OpPostString _ | OpPostParams _ =>
      HTTPC_METHOD_POST
  | OpPut _ _ | OpPutVector _ | OpPutString _ | OpPutParams _ =>
      HTTPC_METHOD_PUT
  | OpDelete => HTTPC_METHOD_DELETE
  end.

Definition request (P : httpc) (op : operation) (ctx0 : httpcContext)
    (url : string) (headers : option string_map) (default_proxy : Z)
    (disable_ssl_verification keep_alive : bool) : M response :=
  match op with
  | OpGet =>
      get P ctx0 url headers default_proxy disable_ssl_verification keep_alive
  | OpPost body length =>
      post P ctx0 url body length headers default_proxy
        disable_ssl_verification keep_alive
  | OpPostVector body =>
      post_vector P ctx0 url body headers default_proxy
        disable_ssl_verification keep_alive
  | OpPostString body =>
      post_string P ctx0 url body headers default_proxy
        disable_ssl_verification keep_alive
  | OpPostParams params =>
      post_params P ctx0 url params headers default_proxy
        disable_ssl_verification keep_alive
  | OpPut body length =>
      put P ctx0 url body length headers default_proxy
        disable_ssl_verification keep_alive
  | OpPutVector body =>
      put_vector P ctx0 url body headers default_proxy
        disable_ssl_verification keep_alive
  | OpPutString body =>
      put_string P ctx0 url body headers default_proxy
        disable_ssl_verification keep_alive
  | OpPutParams params =>
      put_params P ctx0 url params headers default_proxy
        disable_ssl_verification keep_alive
  | OpDelete =>
      deleet P ctx0 url headers default_proxy disable_ssl_verification
        keep_alive
  end.

(** A preparation step: its name and the transport call that performs it. *)
Definition step : Type := httpc_failure * call.

Definition entries (headers : option string_map) : string_map :=
  match headers with
  | None => []
  | Some m => m
  end.

Definition header_step (ctx : httpcContext) (kv : string * string) : step :=
  (SET_HEADER,
   CallAddRequestHeaderField ctx (c_str (fst kv)) (c_str (snd kv))).

Definition keep_alive_option (keep_alive : bool) : HTTPC_KeepAlive :=
  if keep_alive then HTTPC_KEEPALIVE_ENABLED else HTTPC_KEEPALIVE_DISABLED.

Definition connection_keep_alive (ctx : httpcContext) : call :=
  CallAddRequestHeaderField ctx "Connection" "Keep-Alive".

(** The fixed order of the Context Preparer for given arguments: the context
    is opened with [opened]; [ctx] is the context the open call leaves. *)
Definition preparation_steps (opened : HTTPC_RequestMethod)
    (ctx : httpcContext) (url : string) (headers : option string_map)
    (default_proxy : Z) (disable_ssl_verification keep_alive : bool)
  : list step :=
  (OPEN_CONTEXT, CallOpenContext opened (c_str url) default_proxy)
  :: (if disable_ssl_verification
      then [(DISABLE_SSL_VERIFY, CallSetSSLOpt ctx SSLCOPT_DisableVerify)]
      else [])
  ++ (SET_USER_AGENT,
      CallAddRequestHeaderField ctx "User-Agent" CTRQ_USER_AGENT)
  :: map (header_step ctx) (entries headers)
  ++ (SET_KEEP_ALIVE, CallSetKeepAlive ctx (keep_alive_option keep_alive))
  :: (if keep_alive
      then [(SET_KEEP_ALIVE_HEADER, connection_keep_alive ctx)]
      else []).

(** The context left by the open call of [setup_context] made from the log
    [w], when the response held [ctx0]. *)
Definition opened_context (P : httpc) (w : log) (url : string)
    (default_proxy : Z) (ctx0 : httpcContext) : httpcContext :=
  out_context P
    (w ++ [CallOpenContext HTTPC_METHOD_GET (c_str url) default_proxy]) ctx0.

(** Steps 1 to 5 of the Context Preparer: everything up to the keep-alive
    flag, as [setup_context] issues them. *)
Definition flag_steps (ctx : httpcContext) (url : string)
    (headers : option string_map) (default_proxy : Z)
    (disable_ssl_verification keep_alive : bool) : list step :=
  (OPEN_CONTEXT, CallOpenContext HTTPC_METHOD_GET (c_str url) default_proxy)
  :: (if disable_ssl_verification
      then [(DISABLE_SSL_VERIFY, CallSetSSLOpt ctx SSLCOPT_DisableVerify)]
      else [])
  ++ (SET_USER_AGENT,
      CallAddRequestHeaderField ctx "User-Agent" CTRQ_USER_AGENT)
  :: map (header_step ctx) (entries headers)
  ++ [(SET_KEEP_ALIVE, CallSetKeepAlive ctx (keep_alive_option keep_alive))].

(** The calls of steps 1 to 4 of the Context Preparer, as [setup_context]
    issues them. *)
Definition common_calls (ctx : httpcContext) (url : string)
    (headers : option string_map) (default_proxy : Z)
    (disable_ssl_verification : bool) : list call :=
  CallOpenContext HTTPC_METHOD_GET (c_str url) default_proxy
  :: (if disable_ssl_verification
      then [CallSetSSLOpt ctx SSLCOPT_DisableVerify]
      else [])
  ++ CallAddRequestHeaderField ctx "User-Agent" CTRQ_USER_AGENT
  :: map (fun kv => snd (header_step ctx kv)) (entries headers).

(** A driver that performs the calls of a list of steps in order and stops at
    the first one the transport fails, reporting its name and result. *)
Fixpoint run_steps (P : httpc) (steps : list step) (w : log)
  : option (httpc_failure * Result) * log :=
  match steps with
  | [] => (None, w)
  | (name, c) :: rest =>
      let w' := w ++ [c] in
      if R_FAILED P (ret P w') then (Some (name, ret P w'), w')
      else run_steps P rest w'
  end.

(** What [setup_context] returns for an outcome of the step driver. *)
Definition prepared (res : response) (ctx : httpcContext)
    (outcome : option (httpc_failure * Result) * log)
  : bool * response * log :=
  match outcome with
  | (None, w') => ((true, set_context res ctx), w')
  | (Some (name, r), w') =>
      ((false, set_result (set_failure (set_context res ctx) name) r), w')
  end.

(** The private members of a response. *)
Definition private_of (res : response)
  : bool * list u8 * bool * string * bool :=
  (http_context_closed res, body res, body_populated res, body_string res,
   body_string_populated res).

(** The log [w'] continues the log [w]. *)
Definition extends (w w' : log) : Prop := exists done, w' = w ++ done.

(** Every call of [calls], made in order from the log [w], succeeds. *)
Fixpoint all_succeed (P : httpc) (w : log) (calls : list call) : bool :=
  match calls with
  | [] => true
  | c :: rest =>
      negb (R_FAILED P (ret P (w ++ [c]))) && all_succeed P (w ++ [c]) rest
  end.

(** The calls of the Context Preparer. *)
Definition is_preparation_call (c : call) : bool :=
  match c with
  | CallOpenContext _ _ _ | CallSetSSLOpt _ _
  | CallAddRequestHeaderField _ _ _ | CallSetKeepAlive _ _ => true
  | _ => false
  end.

(** The calls of the Request Executor. *)
Definition is_executor_call (c : call) : bool :=
  match c with
  | CallBeginRequest _ | CallGetResponseStatusCode _ => true
  | _ => false
  end.

Definition is_close_call (ctx : httpcContext) (c : call) : bool :=
  match c with
  | CallCloseContext ctx' => Z.eqb ctx ctx'
  | _ => false
  end.

(** How many times the context [ctx] was released in the log [w]. *)
Definition releases (ctx : httpcContext) (w : log) : nat :=
  List.length (filter (is_close_call ctx) w).

Definition download_call (res : response) : call :=
  CallDownloadData (context res) CTRQ_DOWNLOAD_BUFFER_SIZE.

(** [n] further consecutive calls of [get_body]; the outcome of the last. *)
Fixpoint get_body_again (P : httpc) (n : nat) (fuel : nat)
    (last : list u8 * response * log) : option (list u8 * response * log) :=
  match n with
  | O => Some last
  | S n' =>
      match get_body P fuel (snd (fst last)) (snd last) with
      | None => None
      | Some next => get_body_again P n' fuel next
      end
  end.

(** The body of a request: the three raw shapes of [post] and [put] are one
    pointer-and-length body; a form is a map of fields. *)
Inductive payload : Type :=
| NoBody
| RawBody (data : list u8) (length : Z)
| FormBody (params : string_map).

Definition payload_of (op : operation) : payload :=
  match op with
  | OpGet | OpDelete => NoBody
  | OpPost body length | OpPut body length => RawBody body length
  | OpPostVector body | OpPutVector body =>
      RawBody body (Z.of_nat (List.length body))
  | OpPostString body | OpPutString body =>
      RawBody (list_byte_of_string body) (Z.of_nat (String.length body))
  | OpPostParams params | OpPutParams params => FormBody params
  end.

(** The Body Attacher on a payload. *)
Definition attach (P : httpc) (p : payload) (res : response)
  : M (bool * response) :=
  match p with
  | NoBody => mret (true, res)
  | RawBody data length => add_raw_post_data P res data length
  | FormBody params => add_ascii_post_params P res params
  end.

(** The shape shared by the public operations: prepare, attach, execute,
    returning at the first [false]. *)
Definition orchestrate (P : httpc) (p : payload) (ctx0 : httpcContext)
    (url : string) (headers : option string_map) (default_proxy : Z)
    (disable_ssl_verification keep_alive : bool) : M response :=
  let res := new_response ctx0 in
  '(ok, res) <- setup_context P res url HTTPC_METHOD_GET headers
                  default_proxy disable_ssl_verification keep_alive ;;
  if negb ok then mret res
  else
    '(ok, res) <- attach P p res ;;
    if negb ok then mret res
    else
      '(_, res) <- perform_request P res ;;
      mret res.

Definition field_call (ctx : httpcContext) (kv : string * string) : call :=
  CallAddPostDataAscii ctx (c_str (fst kv)) (c_str (snd kv)).

(** The calls that attach a payload, when each of them succeeds. *)
Definition body_calls (p : payload) (ctx : httpcContext) : list call :=
  match p with
  | NoBody => []
  | RawBody data length => [CallAddPostDataRaw ctx data length]
  | FormBody params => map (field_call ctx) params
  end.

Definition executor_calls (ctx : httpcContext) : list call :=
  [CallBeginRequest ctx; CallGetResponseStatusCode ctx].

(** The calls of the Body Attacher. *)
Definition is_attach_call (c : call) : bool :=
  match c with
  | CallAddPostDataRaw _ _ _ | CallAddPostDataAscii _ _ _ => true
  | _ => false
  end.

(** The calls a public operation may make. *)
Definition is_request_call (c : call) : bool :=
  is_preparation_call c || is_attach_call c || is_executor_call c.

(** [w'] continues [w] with calls that all satisfy [Q]. *)
Definition extends_by (Q : call -> bool) (w w' : log) : Prop :=
  exists done, w' = w ++ done /\ forallb Q done = true.

(** A response on which nothing has failed. *)
Definition fine (P : httpc) (res : response) : Prop :=
  failure res = NONE /\ R_FAILED P (result res) = false.

(** A response on which nothing has failed and no status was read. *)
Definition fresh (P : httpc) (res : response) : Prop :=
  fine P res /\ status res = 0.

(** A response that records a failed step; unless the step is the status
    read, no status was read. *)
Definition halted (P : httpc) (res : response) : Prop :=
  failure res <> NONE /\ R_FAILED P (result res) = true /\
  (failure res = GET_RESPONSE_STATUS_CODE \/ status res = 0).

(** The calls of the response class: downloads, header reads, release. *)
Definition is_response_call (c : call) : bool :=
  match c with
  | CallDownloadData _ _ | CallGetResponseHeader _ _ _
  | CallCloseContext _ => true
  | _ => false
  end.

(** The calls of a public operation on which every step succeeds. *)
Definition request_calls (p : payload) (ctx : httpcContext) (url : string)
    (headers : option string_map) (default_proxy : Z)
    (disable_ssl_verification keep_alive : bool) : list call :=
  map snd
    (preparation_steps HTTPC_METHOD_GET ctx url headers default_proxy
       disable_ssl_verification keep_alive)
  ++ body_calls p ctx ++ executor_calls ctx.

(** The calls of a public operation before it begins the request. *)
Definition before_executor_calls (p : payload) (ctx : httpcContext)
    (url : string) (headers : option string_map) (default_proxy : Z)
    (disable_ssl_verification keep_alive : bool) : list call :=
  map snd
    (preparation_steps HTTPC_METHOD_GET ctx url headers default_proxy
       disable_ssl_verification keep_alive)
  ++ body_calls p ctx.

(** The receive buffer of [get_header] before the call. *)
Definition header_buffer : list u8 :=
  repeat x00 (Z.to_nat CTRQ_HEADER_BUFFER_SIZE).

(* ================================================================= *)
(** ** Scripted transports *)

Module Fake.

(** libctru's convention: a result code is a failure when it is negative;
    "download pending" is [0xd840a02b] read as an [s32]. *)
Definition failed (r : Result) : bool := r <? 0.
Definition pending : Result := 0xd840a02b - 2 ^ 32.

Definition is_download (c : call) : bool :=
  match c with
  | CallDownloadData _ _ => true
  | _ => false
  end.

Definition downloads (w : log) : nat := List.length (filter is_download w).

Definition write (data buffer : list u8) : list u8 :=
  data ++ skipn (List.length data) buffer.

(** A transport driven by a script: the calls selected by [refuse] fail
    with code [-1]; the body arrives as [chunks], one per download call, the
    last one answered with [final]; the status is [code] and every response
    header reads [header]. *)
Definition scripted (refuse : call -> bool) (chunks : list (list u8))
    (final : Result) (code : u32) (header : list u8) : httpc :=
  {| R_FAILED := failed;
     HTTPC_RESULTCODE_DOWNLOADPENDING := pending;
     ret := fun w =>
       match last w (CallCloseContext 0) with
       | CallDownloadData _ _ =>
           if (downloads w <? List.length chunks)%nat then pending
           else final
       | c => if refuse c then -1 else 0
       end;
     out_context := fun _ _ => 7;
     out_status := fun _ _ => code;
     out_download := fun w buffer _ =>
       let chunk := nth (downloads w - 1) chunks [] in
       (write chunk buffer, Z.of_nat (List.length chunk));
     out_header := fun _ buffer => write header buffer |}.

Definition nothing (c : call) : bool := false.

Definition field_b (c : call) : bool :=
  match c with
  | CallAddPostDataAscii _ name _ => String.eqb name "b"
  | _ => false
  end.

Definition user_agent (c : call) : bool :=
  match c with
  | CallAddRequestHeaderField _ name _ => String.eqb name "User-Agent"
  | _ => false
  end.

(** Status 200, body "hi" in one chunk. *)
Definition hi : httpc := scripted nothing [[x68; x69]] 0 200 [].

(** Status 404, every call succeeds. *)
Definition not_found : httpc := scripted nothing [[]] 0 404 [].

(** Body "a", NUL, "b" delivered in two chunks. *)
Definition nul_body : httpc :=
  scripted nothing [[x61; x00]; [x62]] 0 200 [].


(** Attaching the form field "b" fails. *)
Definition refuse_b : httpc := scripted field_b [[]] 0 200 [].

(** Setting the user agent fails. *)
Definition refuse_user_agent : httpc := scripted user_agent [[]] 0 200 [].

(** Every header reads "ok". *)
Definition with_header : httpc := scripted nothing [[]] 0 200 [x6f; x6b].

Definition raw_data (c : call) : bool :=
  match c with
  | CallAddPostDataRaw _ _ _ => true
  | _ => false
  end.

(** Attaching a raw body fails. *)
Definition refuse_raw : httpc := scripted raw_data [[]] 0 200 [].

Definition begin (c : call) : bool :=
  match c with
  | CallBeginRequest _ => true
  | _ => false
  end.

Definition status_read (c : call) : bool :=
  match c with
  | CallGetResponseStatusCode _ => true
  | _ => false
  end.

(** Beginning the request fails. *)
Definition refuse_begin : httpc := scripted begin [[]] 0 200 [].

(** The status read fails and leaves 503 in the status word. *)
Definition refuse_status : httpc := scripted status_read [[]] 0 503 [].

End Fake.

(* ================================================================= *)
(** ** Scenarios *)

Module Scenario.

Definition url : string := "http://example.test/".

(** POST of the form [a=1, b=2] on a transport that refuses field "b":
    the preparation, and the attachment that follows it. *)
Definition form : string_map := [("a", "1"); ("b", "2")].



(** GET on a transport that refuses the user agent: the steps before the
    failing one, and the steps after it. *)
Definition before_user_agent : list step :=
  [(OPEN_CONTEXT, CallOpenContext HTTPC_METHOD_GET url 0);
   (DISABLE_SSL_VERIFY, CallSetSSLOpt 7 SSLCOPT_DisableVerify)].

Definition after_user_agent : list step :=
  [(SET_KEEP_ALIVE, CallSetKeepAlive 7 HTTPC_KEEPALIVE_ENABLED);
   (SET_KEEP_ALIVE_HEADER,
    CallAddRequestHeaderField 7 "Connection" "Keep-Alive")].

(** GET of a body with an embedded NUL, arriving in two chunks, and its
    first read. *)
Definition fetched : response * log :=
  get Fake.nul_body 0 url None 0 true true [].

Definition first_read : list u8 * response * log :=
  match get_body Fake.nul_body 5 (fst fetched) (snd fetched) with
  | Some out => out
  | None => ([], fst fetched, snd fetched)
  end.

(** GET of the body "hi". *)
Definition fetched_hi : response * log :=
  get Fake.hi 0 url None 0 true true [].


(** POST of a string body with one caller header. *)
Definition accept : option string_map := Some [("Accept", "*/*")].

Definition raw_prepared : bool * response * log :=
  setup_context Fake.refuse_raw (new_response 0) url HTTPC_METHOD_PUT accept
    0 false true [].

(** The text read from [fetched]. *)
Definition first_text : string * response * log :=
  match get_body_string Fake.nul_body 5 (fst fetched) (snd fetched) with
  | Some out => out
  | None => ("", fst fetched, snd fetched)
  end.

(** GET on the transport whose headers read "ok". *)
Definition fetched_header : response * log :=
  get Fake.with_header 0 url None 0 true true [].

End Scenario.

(* ================================================================= *)
(** ** The step driver *)

Section Driver.

Variable P : httpc.

Lemma run_steps_app (s1 s2 : list step) (w : log) :
  run_steps P (s1 ++ s2) w =
  match run_steps P s1 w with
  | (None, w') => run_steps P s2 w'
  | stopped => stopped
  end.
Proof.
  revert w; induction s1 as [|[name c] s1 IH]; intros w; simpl.
  - reflexivity.
  - destruct (R_FAILED P (ret P (w ++ [c]))); [reflexivity | apply IH].
Qed.

(** The driver only appends to the log, and what it appends is an initial
    segment of the calls it was given. *)
Lemma run_steps_prefix (steps : list step) (w : log) :
  exists done rest,
    snd (run_steps P steps w) = w ++ done /\
    map snd steps = done ++ rest.
Proof.
  revert w; induction steps as [|[name c] steps IH]; intros w; simpl.
  - exists [], []. now rewrite app_nil_r.
  - destruct (R_FAILED P (ret P (w ++ [c]))); simpl.
    + exists [c], (map snd steps). split; reflexivity.
    + destruct (IH (w ++ [c])) as (done & rest & Hlog & Hsplit).
      exists (c :: done), rest. split.
      * now rewrite Hlog, <- app_assoc.
      * simpl. now rewrite Hsplit.
Qed.

Lemma run_steps_success (steps : list step) (w w' : log) :
  run_steps P steps w = (None, w') -> w' = w ++ map snd steps.
Proof.
  revert w; induction steps as [|[name c] steps IH]; intros w; simpl.
  - intros [= <-]. now rewrite app_nil_r.
  - destruct (R_FAILED P (ret P (w ++ [c]))); [discriminate|].
    intros H. apply IH in H. now rewrite H, <- app_assoc.
Qed.

Lemma run_steps_stopped (steps : list step) (w w' : log)
    (name : httpc_failure) (r : Result) :
  run_steps P steps w = (Some (name, r), w') ->
  R_FAILED P r = true /\ r = ret P w' /\ In name (map fst steps).
Proof.
  revert w; induction steps as [|[name' c] steps IH]; intros w; simpl.
  - discriminate.
  - destruct (R_FAILED P (ret P (w ++ [c]))) eqn:E.
    + intros [= <- <- <-]. auto.
    + intros H. apply IH in H. tauto.
Qed.

(** The first failing step decides the outcome: the steps before it are
    performed, it is performed, and nothing after it is. *)
Lemma run_steps_first_failure (pre post : list step)
    (name : httpc_failure) (c : call) (w : log) :
  all_succeed P w (map snd pre) = true ->
  R_FAILED P (ret P (w ++ map snd pre ++ [c])) = true ->
  run_steps P (pre ++ (name, c) :: post) w =
  (Some (name, ret P (w ++ map snd pre ++ [c])), w ++ map snd pre ++ [c]).
Proof.
  revert w; induction pre as [|[name' c'] pre IH]; intros w; simpl.
  - intros _ Hfail. now rewrite Hfail.
  - intros Hok Hfail. apply andb_true_iff in Hok as [Hc' Hok].
    apply negb_true_iff in Hc'. rewrite Hc'.
    rewrite (IH (w ++ [c'])); rewrite <- ?app_assoc; auto.
Qed.

Lemma run_steps_all_succeed (steps : list step) (w : log) :
  all_succeed P w (map snd steps) = true ->
  run_steps P steps w = (None, w ++ map snd steps).
Proof.
  revert w; induction steps as [|[name c] steps IH]; intros w; simpl.
  - now rewrite app_nil_r.
  - intros Hok. apply andb_true_iff in Hok as [Hc Hok].
    apply negb_true_iff in Hc. rewrite Hc, (IH _ Hok).
    now rewrite <- app_assoc.
Qed.

End Driver.

(* ================================================================= *)
(** ** Context Preparer *)

Section Preparer.

Variable P : httpc.

Lemma add_headers_loop_steps (ctx : httpcContext) (m : string_map)
    (w : log) :
  add_headers_loop P ctx m w =
  match run_steps P (map (header_step ctx) m) w with
  | (None, w') => (0, w')
  | (Some (_, r), w') => (r, w')
  end.
Proof.
  revert w; induction m as [|[k v] m IH]; intros w; simpl.
  - reflexivity.
  - unfold mbind, httpcAddRequestHeaderField, invoke; simpl.
    destruct (R_FAILED P _); [reflexivity | apply IH].
Qed.

Lemma add_headers_steps (ctx : httpcContext) (headers : option string_map)
    (w : log) :
  add_headers P ctx headers w =
  match run_steps P (map (header_step ctx) (entries headers)) w with
  | (None, w') => (0, w')
  | (Some (_, r), w') => (r, w')
  end.
Proof.
  destruct headers as [m|]; simpl; [apply add_headers_loop_steps|].
  reflexivity.
Qed.

Hypothesis success_code : R_FAILED P 0 = false.

(** Case analysis on the outcome of the next transport call: a failure
    ends the function on both sides. *)
Local Ltac first_call :=
  match goal with
  | |- context [R_FAILED P (ret P ?l)] =>
      destruct (R_FAILED P (ret P l)) eqn:?; [reflexivity|]
  end.

(** [setup_context] is the step driver run on [preparation_steps], opened
    with [HTTPC_METHOD_GET] whatever [method] is. *)
Lemma setup_context_steps (res : response) (url : string)
    (method : HTTPC_RequestMethod) (headers : option string_map)
    (default_proxy : Z) (ssl keep_alive : bool) (w : log) :
  let ctx :=
    out_context P
      (w ++ [CallOpenContext HTTPC_METHOD_GET (c_str url) default_proxy])
      (context res) in
  setup_context P res url method headers default_proxy ssl keep_alive w =
  prepared res ctx
    (run_steps P
       (preparation_steps HTTPC_METHOD_GET ctx url headers default_proxy
          ssl keep_alive) w).
Proof.
  intros ctx.
  unfold setup_context, preparation_steps, mbind, httpcOpenContext,
    httpcSetSSLOpt, httpcAddRequestHeaderField, httpcSetKeepAlive, invoke,
    _CTRQ_FALSE_IF_FAILED, mret, keep_alive_option, connection_keep_alive.
  cbn [run_steps]. fold ctx. first_call.
  cbn [context set_context].
  destruct ssl; cbn [app run_steps]; [first_call|];
    (first_call;
     rewrite add_headers_steps, run_steps_app;
     destruct (run_steps P (map (header_step ctx) (entries headers)) _)
       as [[[name r]|] w2] eqn:Hh;
     [ apply run_steps_stopped in Hh as (Hr & _ & Hname);
       rewrite Hr; simpl;
       assert (name = SET_HEADER) as ->; [|reflexivity];
       rewrite map_map in Hname; apply in_map_iff in Hname;
       now destruct Hname as (kv & <- & _)
     | rewrite success_code; cbn [run_steps]; first_call;
       destruct keep_alive; [|reflexivity];
       cbn [run_steps]; first_call; reflexivity ]).
Qed.

End Preparer.

(* ================================================================= *)
(** ** Request orchestrators *)

Section Orchestrators.

Variable P : httpc.

Local Ltac case_failed :=
  match goal with
  | |- context [R_FAILED P ?r] => destruct (R_FAILED P r) eqn:?
  end.

Lemma extends_refl (w : log) : extends w w.
Proof. exists []. now rewrite app_nil_r. Qed.

Lemma extends_trans (w1 w2 w3 : log) :
  extends w1 w2 -> extends w2 w3 -> extends w1 w3.
Proof.
  intros [d1 ->] [d2 ->]. exists (d1 ++ d2). now rewrite app_assoc.
Qed.

Lemma perform_request_extends (res : response) (w : log) :
  extends w (snd (perform_request P res w)).
Proof.
  unfold perform_request, mbind, httpcBeginRequest,
    httpcGetResponseStatusCode, invoke, _CTRQ_FALSE_IF_FAILED, mret.
  case_failed; simpl; [now eexists|].
  case_failed; simpl; rewrite <- app_assoc; now eexists.
Qed.

Lemma add_raw_post_data_extends (res : response) (data : list u8)
    (len : u32) (w : log) :
  extends w (snd (add_raw_post_data P res data len w)).
Proof.
  unfold add_raw_post_data, mbind, httpcAddPostDataRaw, invoke, mret.
  case_failed; simpl; now eexists.
Qed.

Lemma add_ascii_post_params_extends (res : response) (params : string_map)
    (w : log) :
  extends w (snd (add_ascii_post_params P res params w)).
Proof.
  revert res w; induction params as [|[k v] params IH]; intros res w.
  - apply extends_refl.
  - simpl. unfold add_ascii_post_param, httpcAddPostDataAscii, invoke,
      mret, mbind.
    case_failed; simpl; [now eexists|].
    eapply extends_trans; [|apply IH]. now eexists.
Qed.

(** Name the outcome of the next call of an orchestrator and record that
    it only extends the log. *)
Local Ltac next_call :=
  match goal with
  | |- context [perform_request P ?r ?w] =>
      pose proof (perform_request_extends r w);
      destruct (perform_request P r w) as [[? ?] ?]
  | |- context [add_raw_post_data P ?r ?d ?l ?w] =>
      pose proof (add_raw_post_data_extends r d l w);
      destruct (add_raw_post_data P r d l w) as [[[|] ?] ?]
  | |- context [add_ascii_post_params P ?r ?m ?w] =>
      pose proof (add_ascii_post_params_extends r m w);
      destruct (add_ascii_post_params P r m w) as [[[|] ?] ?]
  end.

(** When preparation fails, every public operation hands the response of
    [setup_context] back as it is, without a further transport call. *)
Lemma request_returns_failed_preparation (op : operation)
    (ctx0 : httpcContext) (url : string) (headers : option string_map)
    (default_proxy : Z) (ssl keep_alive : bool) (w : log)
    (res : response) (w' : log) :
  setup_context P (new_response ctx0) url (method_of op) headers
    default_proxy ssl keep_alive w = ((false, res), w') ->
  request P op ctx0 url headers default_proxy ssl keep_alive w = (res, w').
Proof.
  intros H.
  destruct op; simpl in H; simpl;
    unfold get, post_vector, post_string, post, post_params, put_vector,
      put_string, put, put_params, deleet, mbind;
    rewrite H; reflexivity.
Qed.

(** The log of a public operation continues the log of its preparation. *)
Lemma request_extends_preparation (op : operation) (ctx0 : httpcContext)
    (url : string) (headers : option string_map) (default_proxy : Z)
    (ssl keep_alive : bool) (w : log) :
  extends
    (snd (setup_context P (new_response ctx0) url (method_of op) headers
            default_proxy ssl keep_alive w))
    (snd (request P op ctx0 url headers default_proxy ssl keep_alive w)).
Proof.
  destruct op; simpl;
    unfold get, post_vector, post_string, post, post_params, put_vector,
      put_string, put, put_params, deleet, mbind;
    destruct (setup_context P _ _ _ _ _ _ _ w) as [[[|] ?] ?];
    simpl; try apply extends_refl;
    repeat (next_call; simpl in *);
    eauto using extends_trans.
Qed.

Lemma add_headers_calls (ctx : httpcContext) (headers : option string_map)
    (w : log) :
  exists done,
    snd (add_headers P ctx headers w) = w ++ done /\
    forallb is_preparation_call done = true.
Proof.
  rewrite add_headers_steps.
  destruct (run_steps_prefix P (map (header_step ctx) (entries headers)) w)
    as (done & rest & Hlog & Hsplit).
  exists done. split.
  - now destruct (run_steps P _ w) as [[[name r]|] w'].
  - assert (H : forallb is_preparation_call (done ++ rest) = true).
    { rewrite <- Hsplit, map_map. apply forallb_forall.
      intros c Hc. apply in_map_iff in Hc. now destruct Hc as (kv & <- & _). }
    rewrite forallb_app in H. now apply andb_true_iff in H.
Qed.

(** Whatever its arguments, [setup_context] starts by opening a context
    with [HTTPC_METHOD_GET]; every call it makes is a preparation call. *)
Lemma setup_context_calls (res : response) (url : string)
    (method : HTTPC_RequestMethod) (headers : option string_map)
    (default_proxy : Z) (ssl keep_alive : bool) (w : log) :
  exists done,
    snd (setup_context P res url method headers default_proxy ssl
           keep_alive w) =
    w ++ CallOpenContext HTTPC_METHOD_GET (c_str url) default_proxy :: done
    /\ forallb is_preparation_call done = true.
Proof.
  unfold setup_context, httpcOpenContext, httpcSetSSLOpt,
    httpcAddRequestHeaderField, httpcSetKeepAlive, invoke,
    _CTRQ_FALSE_IF_FAILED, mret, mbind.
  cbn [context set_context].
  set (ctx := out_context P _ _).
  assert (Hleaf : forall calls,
    forallb is_preparation_call calls = true ->
    exists done,
      (w ++ [CallOpenContext HTTPC_METHOD_GET (c_str url) default_proxy])
        ++ calls =
      w ++ CallOpenContext HTTPC_METHOD_GET (c_str url) default_proxy
        :: done /\
      forallb is_preparation_call done = true).
  { intros calls H. exists calls. now rewrite <- app_assoc. }
  case_failed; [simpl; rewrite <- (app_nil_r (w ++ [_])); now apply Hleaf|].
  destruct ssl;
    [case_failed;
     [simpl; rewrite <- ?app_assoc, app_assoc; now apply Hleaf|] |];
    (case_failed;
     [simpl; rewrite <- ?app_assoc, app_assoc; now apply Hleaf|];
     match goal with
     | |- context [add_headers P ctx headers ?w1] =>
         destruct (add_headers_calls ctx headers w1) as (d & Hd & Hprep);
         destruct (add_headers P ctx headers w1) as [r w2]
     end; simpl in Hd; subst w2;
     case_failed;
     [simpl; rewrite <- ?app_assoc, app_assoc; apply Hleaf; simpl;
      now rewrite ?forallb_app, Hprep|];
     case_failed;
     [simpl; rewrite <- ?app_assoc, app_assoc; apply Hleaf; simpl;
      now rewrite ?forallb_app, Hprep|];
     destruct keep_alive; [case_failed|];
     simpl; rewrite <- ?app_assoc, app_assoc; apply Hleaf; simpl;
     now rewrite ?forallb_app, Hprep).
Qed.

End Orchestrators.

(* ================================================================= *)
(** ** The response class *)

Section Response.

Variable P : httpc.

Lemma string_of_data_length (data : list u8) :
  String.length (string_of_data data) = List.length data.
Proof.
  unfold string_of_data, string_of_list_byte.
  induction data as [|b data IH]; simpl; [reflexivity | now f_equal].
Qed.

Lemma string_of_data_bytes (data : list u8) :
  list_byte_of_string (string_of_data data) = data.
Proof. apply list_byte_of_string_of_list_byte. Qed.

Lemma download_frame (res res' : response) (r : Result) (b : list u8) :
  set_body (set_result res' (result (set_body (set_result res r) b)))
    (body (set_body (set_result res r) b)) =
  set_body (set_result res r) b ->
  set_body (set_result res' (result res)) (body res) = res.
Proof.
  destruct res, res'. unfold set_body, set_result. cbn.
  intros [= -> -> -> -> -> -> ->]. reflexivity.
Qed.

(** The download loop touches [result] and [body] only; it stops on the
    first answer that is not "download pending" and leaves that answer in
    [result]; all its calls are download calls on the response's context. *)
Lemma get_body_loop_stops (fuel : nat) (res : response) (buffer : list u8)
    (size : u32) (w : log) (res' : response) (w' : log) :
  get_body_loop P fuel res buffer size w = Some (res', w') ->
  (exists n, (n < fuel)%nat /\
             w' = w ++ repeat (download_call res) (S n)) /\
  result res' = ret P w' /\
  ret P w' <> HTTPC_RESULTCODE_DOWNLOADPENDING P /\
  set_body (set_result res' (result res)) (body res) = res.
Proof.
  revert res buffer size w.
  induction fuel as [|fuel IH]; intros res buffer size w; simpl;
    [discriminate|].
  destruct (out_download P _ buffer size) as [buffer' size'].
  destruct (ret P _ =? HTTPC_RESULTCODE_DOWNLOADPENDING P) eqn:E.
  - intros H. apply IH in H as ((n & Hn & Hlog) & Hres & Hstop & Hsame).
    repeat split; try assumption.
    + exists (S n). split; [lia|].
      rewrite Hlog, <- app_assoc. reflexivity.
    + eapply download_frame. exact Hsame.
  - intros [= <- <-]. apply Z.eqb_neq in E.
    repeat split; try assumption.
    + exists O. split; [lia | reflexivity].
    + now destruct res.
Qed.

(** The loop returns as soon as the transport stops answering "download
    pending", provided the fuel covers that many rounds. *)
Lemma get_body_loop_returns (k fuel : nat) (res : response)
    (buffer : list u8) (size : u32) (w : log) :
  (k < fuel)%nat ->
  ret P (w ++ repeat (download_call res) (S k)) <>
    HTTPC_RESULTCODE_DOWNLOADPENDING P ->
  exists out, get_body_loop P fuel res buffer size w = Some out.
Proof.
  revert fuel res buffer size w.
  induction k as [|k IH]; intros [|fuel] res buffer size w Hk Hstop;
    try lia; simpl.
  - destruct (out_download P _ buffer size) as [buffer' size'].
    apply Z.eqb_neq in Hstop. simpl in Hstop. unfold download_call in Hstop.
    rewrite Hstop. now eexists.
  - destruct (out_download P _ buffer size) as [buffer' size'].
    destruct (ret P _ =? HTTPC_RESULTCODE_DOWNLOADPENDING P);
      [|now eexists].
    apply IH; [lia|].
    cbn [download_call context set_body set_result].
    rewrite <- app_assoc. exact Hstop.
Qed.


Lemma get_body_cached (fuel : nat) (res : response) (w : log) :
  body_populated res || http_context_closed res = true ->
  get_body P fuel res w = Some (body res, res, w).
Proof. unfold get_body. now intros ->. Qed.

(** A second [get_body] finds the outcome of the first. *)
Lemma get_body_twice (fuel fuel' : nat) (res : response) (w : log)
    (b : list u8) (res1 : response) (w1 : log) :
  get_body P fuel res w = Some (b, res1, w1) ->
  get_body P fuel' res1 w1 = Some (b, res1, w1).
Proof.
  unfold get_body at 1.
  destruct (body_populated res || http_context_closed res) eqn:E.
  - intros [= <- <- <-]. now apply get_body_cached.
  - destruct (get_body_loop P fuel res _ _ w) as [[res' w']|];
      [|discriminate].
    intros [= <- <- <-].
    exact (get_body_cached fuel' (set_body_populated res' true) w' eq_refl).
Qed.

(** The members [get_body] leaves alone. *)
Lemma get_body_private (fuel : nat) (res : response) (w : log)
    (b : list u8) (res1 : response) (w1 : log) :
  get_body P fuel res w = Some (b, res1, w1) ->
  http_context_closed res1 = http_context_closed res /\
  body_string_populated res1 = body_string_populated res /\
  body_string res1 = body_string res /\
  context res1 = context res /\
  b = body res1.
Proof.
  unfold get_body.
  destruct (body_populated res || http_context_closed res).
  - intros [= <- <- <-]. tauto.
  - destruct (get_body_loop P fuel res _ _ w) as [[res' w']|] eqn:E;
      [|discriminate].
    intros [= <- <- <-]. apply get_body_loop_stops in E as (_ & _ & _ & E).
    rewrite <- E. destruct res'. cbn. tauto.
Qed.

Lemma get_body_string_private (fuel : nat) (res : response) (w : log)
    (s : string) (res1 : response) (w1 : log) :
  get_body_string P fuel res w = Some (s, res1, w1) ->
  http_context_closed res1 = http_context_closed res /\
  body_string_populated res1 = body_string_populated res.
Proof.
  unfold get_body_string.
  destruct (http_context_closed res || body_string_populated res).
  - intros [= <- <- <-]. tauto.
  - destruct (get_body P fuel res w) as [[[b res'] w']|] eqn:E;
      [|discriminate].
    intros [= <- <- <-]. apply get_body_private in E. cbn. tauto.
Qed.

Lemma get_header_unchanged (res : response) (header : string) (w : log) :
  snd (fst (get_header P res header w)) = res.
Proof.
  unfold get_header, mbind, httpcGetResponseHeader, mret.
  now destruct (http_context_closed res).
Qed.

(** [close_context] does not write to the object: in particular it leaves
    [http_context_closed] as it found it. *)
Lemma close_context_unchanged (res : response) (w : log) :
  fst (close_context P res w) = res.
Proof.
  unfold close_context, mbind, httpcCloseContext, invoke, mret.
  now destruct (http_context_closed res).
Qed.

Lemma close_context_open (res : response) (w : log) :
  http_context_closed res = false ->
  close_context P res w = (res, w ++ [CallCloseContext (context res)]).
Proof.
  unfold close_context, mbind, httpcCloseContext, invoke, mret.
  now intros ->.
Qed.

Lemma releases_app (ctx : httpcContext) (w1 w2 : log) :
  releases ctx (w1 ++ w2) = (releases ctx w1 + releases ctx w2)%nat.
Proof. unfold releases. now rewrite filter_app, length_app. Qed.

Lemma releases_close (ctx : httpcContext) :
  releases ctx [CallCloseContext ctx] = 1%nat.
Proof. unfold releases. simpl. now rewrite Z.eqb_refl. Qed.

End Response.

(* ================================================================= *)
(** ** What the orchestrators leave alone *)

Section Frame.

Variable P : httpc.

Local Ltac case_failed :=
  match goal with
  | |- context [R_FAILED P ?r] => destruct (R_FAILED P r) eqn:?
  end.

(** Preparation writes [context], [failure] and [result] only. *)
Lemma setup_context_frame (res : response) (url : string)
    (method : HTTPC_RequestMethod) (headers : option string_map)
    (default_proxy : Z) (ssl keep_alive : bool) (w : log) :
  let res' :=
    snd (fst (setup_context P res url method headers default_proxy ssl
                keep_alive w)) in
  private_of res' = private_of res /\ status res' = status res.
Proof.
  unfold setup_context, httpcOpenContext, httpcSetSSLOpt,
    httpcAddRequestHeaderField, httpcSetKeepAlive, invoke,
    _CTRQ_FALSE_IF_FAILED, mret, mbind.
  case_failed; [now destruct res|].
  destruct ssl; [case_failed; [now destruct res|] |];
    (case_failed; [now destruct res|];
     destruct (add_headers P _ headers _) as [r w'];
     case_failed; [now destruct res|];
     case_failed; [now destruct res|];
     destruct keep_alive; [case_failed|]; now destruct res).
Qed.

Lemma perform_request_frame (res : response) (w : log) :
  private_of (snd (fst (perform_request P res w))) = private_of res.
Proof.
  unfold perform_request, httpcBeginRequest, httpcGetResponseStatusCode,
    invoke, _CTRQ_FALSE_IF_FAILED, mret, mbind.
  case_failed; [now destruct res|].
  case_failed; now destruct res.
Qed.

Lemma add_raw_post_data_frame (res : response) (data : list u8)
    (len : u32) (w : log) :
  let res' := snd (fst (add_raw_post_data P res data len w)) in
  private_of res' = private_of res /\ status res' = status res.
Proof.
  unfold add_raw_post_data, httpcAddPostDataRaw, invoke, mret, mbind.
  case_failed; now destruct res.
Qed.

Lemma add_ascii_post_params_frame (res : response) (params : string_map)
    (w : log) :
  let res' := snd (fst (add_ascii_post_params P res params w)) in
  private_of res' = private_of res /\ status res' = status res /\
  context res' = context res.
Proof.
  revert res w; induction params as [|[k v] params IH]; intros res w.
  - cbn. tauto.
  - cbn [add_ascii_post_params].
    unfold add_ascii_post_param, httpcAddPostDataAscii, invoke, mret, mbind.
    case_failed; cbn [negb fst snd].
    + destruct res; cbn; tauto.
    + match goal with
      | |- context [add_ascii_post_params P ?r params ?w1] =>
          destruct (IH r w1) as (Hp & Hs & Hc)
      end.
      cbv zeta in *. rewrite Hp, Hs, Hc. clear Hp Hs Hc IH.
      destruct res; cbn; tauto.
Qed.

Local Ltac frame_call :=
  match goal with
  | |- context [perform_request P ?r ?w] =>
      pose proof (perform_request_frame r w);
      destruct (perform_request P r w) as [[? ?] ?]
  | |- context [add_raw_post_data P ?r ?d ?l ?w] =>
      destruct (add_raw_post_data_frame r d l w) as [? _];
      destruct (add_raw_post_data P r d l w) as [[[|] ?] ?]
  | |- context [add_ascii_post_params P ?r ?m ?w] =>
      destruct (add_ascii_post_params_frame r m w) as [? _];
      destruct (add_ascii_post_params P r m w) as [[[|] ?] ?]
  end.

(** No public operation sets a private member: the response it returns
    has an empty, unpopulated body and an open context flag. *)
Lemma request_private (op : operation) (ctx0 : httpcContext)
    (url : string) (headers : option string_map) (default_proxy : Z)
    (ssl keep_alive : bool) (w : log) :
  private_of
    (fst (request P op ctx0 url headers default_proxy ssl keep_alive w)) =
  (false, [], false, "", false).
Proof.
  change (false, [], false, "", false)
    with (private_of (new_response ctx0)).
  destruct op; simpl;
    unfold get, post_vector, post_string, post, post_params, put_vector,
      put_string, put, put_params, deleet, mbind;
    match goal with
    | |- context [setup_context P ?r ?u ?m ?h ?d ?s ?k w] =>
        destruct (setup_context_frame r u m h d s k w) as [Hs _];
        destruct (setup_context P r u m h d s k w) as [[[|] r1] w1]
    end; simpl in *; try exact Hs;
    repeat (frame_call; simpl in *); congruence.
Qed.

End Frame.

(* ================================================================= *)
(** ** Properties of the request life cycle *)

(** C1 (the code departs from it).  Every public operation begins by opening
    a context, but [setup_context] ignores its [method] argument: for every
    operation, POST, PUT and DELETE included, the first transport call is
    [httpcOpenContext] with [HTTPC_METHOD_GET], the URL and the proxy
    selector.  The context is therefore not opened for the method the
    operation was invoked with. *)
Theorem request_opens_context_with_method_get (P : httpc) (op : operation)
    (ctx0 : httpcContext) (url : string) (headers : option string_map)
    (default_proxy : Z) (ssl keep_alive : bool) (w : log) :
  exists done,
    snd (request P op ctx0 url headers default_proxy ssl keep_alive w) =
    w ++ CallOpenContext HTTPC_METHOD_GET (c_str url) default_proxy :: done.
Proof.
  destruct (setup_context_calls P (new_response ctx0) url (method_of op)
              headers default_proxy ssl keep_alive w) as (d1 & Hsetup & _).
  destruct (request_extends_preparation P op ctx0 url headers default_proxy
              ssl keep_alive w) as (d2 & Hreq).
  exists (d1 ++ d2). rewrite Hreq, Hsetup, <- app_assoc. reflexivity.
Qed.

(** A POST of one byte on a transport where every call succeeds: the context
    is opened with [HTTPC_METHOD_GET]. *)
Example post_opens_get_context :
  method_of (OpPost [x01] 1) = HTTPC_METHOD_POST /\
  snd (request Fake.hi (OpPost [x01] 1) 0 "http://example.test/" None 0
         false false []) =
  [CallOpenContext HTTPC_METHOD_GET "http://example.test/" 0;
   CallAddRequestHeaderField 7 "User-Agent" "ctrq/0.0.1";
   CallSetKeepAlive 7 HTTPC_KEEPALIVE_DISABLED;
   CallAddPostDataRaw 7 [x01] 1;
   CallBeginRequest 7;
   CallGetResponseStatusCode 7].
Proof. split; reflexivity. Qed.

(** C2 (the code departs from it).  [close_context] tests
    [http_context_closed] but never sets it, so the release is not
    idempotent: on the response of any public operation, one explicit
    [close_context] followed by the destructor releases the context twice,
    and the flag is still clear afterwards. *)
Theorem close_context_then_destructor_releases_twice (P : httpc)
    (op : operation) (ctx0 : httpcContext) (url : string)
    (headers : option string_map) (default_proxy : Z)
    (ssl keep_alive : bool) (w : log) :
  let (res, w1) :=
    request P op ctx0 url headers default_proxy ssl keep_alive w in
  let (res1, w2) := close_context P res w1 in
  let (res2, w3) := destroy P res1 w2 in
  releases (context res) w3 = (releases (context res) w1 + 2)%nat /\
  http_context_closed res2 = false.
Proof.
  pose proof (request_private P op ctx0 url headers default_proxy ssl
                keep_alive w) as Hp.
  destruct (request P op ctx0 url headers default_proxy ssl keep_alive w)
    as [res w1].
  simpl in Hp. injection Hp as Hclosed _ _ _ _.
  unfold destroy. rewrite close_context_open by assumption.
  rewrite close_context_open by assumption.
  split; [|assumption].
  rewrite !releases_app, releases_close. lia.
Qed.

(** Two explicit calls of [close_context] and the destructor, on the
    response of a GET: three releases of one context. *)
Example close_context_twice_then_destructor :
  let (res, w1) := get Fake.hi 0 "http://example.test/" None 0 true true [] in
  let (res1, w2) := close_context Fake.hi res w1 in
  let (res2, w3) := close_context Fake.hi res1 w2 in
  let (res3, w4) := destroy Fake.hi res2 w3 in
  releases (context res) w1 = 0%nat /\ releases (context res) w4 = 3%nat.
Proof. split; reflexivity. Qed.

(** C3 (the code departs from it).  The flag that [close_context] leaves
    clear is the one the accessors test, so they do not notice the release:
    on the response of any public operation, after [close_context] the flag
    is still clear, [get_header] calls [httpcGetResponseHeader] on the
    released context and returns what the transport left in the buffer, and
    a [get_body] that returns has made at least one [httpcDownloadData] call
    on the released context. *)
Theorem get_header_after_close_calls_transport (P : httpc) (op : operation)
    (ctx0 : httpcContext) (url : string) (headers : option string_map)
    (default_proxy : Z) (ssl keep_alive : bool) (w : log) (header : string) :
  let (res, w1) :=
    request P op ctx0 url headers default_proxy ssl keep_alive w in
  let (res1, w2) := close_context P res w1 in
  let w3 :=
    w1 ++ [CallCloseContext (context res);
           CallGetResponseHeader (context res) (c_str header)
             CTRQ_HEADER_BUFFER_SIZE] in
  w2 = w1 ++ [CallCloseContext (context res)] /\
  http_context_closed res1 = false /\
  get_header P res1 header w2 =
  ((string_of_c_buffer
      (out_header P w3 (repeat x00 (Z.to_nat CTRQ_HEADER_BUFFER_SIZE))),
    res), w3) /\
  (forall (fuel : nat) (b : list u8) (res2 : response) (w4 : log),
     get_body P fuel res1 w2 = Some (b, res2, w4) ->
     exists k : nat, w4 = w2 ++ repeat (download_call res) (S k)).
Proof.
  pose proof (request_private P op ctx0 url headers default_proxy ssl
                keep_alive w) as Hp.
  destruct (request P op ctx0 url headers default_proxy ssl keep_alive w)
    as [res w1].
  simpl in Hp. injection Hp as Hclosed _ Hpopulated _ _.
  rewrite close_context_open by assumption.
  split; [reflexivity|]. split; [assumption|]. split.
  - unfold get_header, httpcGetResponseHeader, mbind, mret.
    rewrite Hclosed, <- app_assoc. reflexivity.
  - intros fuel b res2 w4. unfold get_body.
    rewrite Hclosed, Hpopulated. cbn [orb].
    destruct (get_body_loop P fuel res _ _ _) as [[res' w']|] eqn:E;
      [|discriminate].
    intros [= _ _ <-].
    apply get_body_loop_stops in E as ((n & _ & Hlog) & _).
    now exists n.
Qed.

(** After [close_context], on a transport whose headers read "ok" and whose
    body is "hi": [get_header] returns "ok", [get_body] returns the two
    bytes, [get_body_string] returns "hi", and each of them calls the
    transport. *)
Example accessors_after_close_context :
  let (res, w1) :=
    get Fake.with_header 0 "http://example.test/" None 0 true true [] in
  let (res1, w2) := close_context Fake.with_header res w1 in
  fst (fst (get_header Fake.with_header res1 "Content-Type" w2)) = "ok" /\
  snd (get_header Fake.with_header res1 "Content-Type" w2) =
    w2 ++ [CallGetResponseHeader 7 "Content-Type" 4096] /\
  (let (res, w1) :=
     get Fake.hi 0 "http://example.test/" None 0 true true [] in
   let (res1, w2) := close_context Fake.hi res w1 in
   (exists res2,
      get_body Fake.hi 1 res1 w2 =
      Some ([x68; x69], res2, w2 ++ [CallDownloadData 7 4096])) /\
   (exists res2,
      get_body_string Fake.hi 1 res1 w2 =
      Some ("hi", res2, w2 ++ [CallDownloadData 7 4096]))).
Proof.
  vm_compute. repeat split; eexists; reflexivity.
Qed.

(** A body that was read before the release stays cached: GET, [get_body]
    (the bytes "hi"), [close_context], [get_body] again.  The last call
    returns the two cached bytes without a transport call. *)
Example cached_body_returned_after_close_context :
  let (res, w) := Scenario.fetched_hi in
  match get_body Fake.hi 1 res w with
  | Some (_, res1, w1) =>
      let (res2, w2) := close_context Fake.hi res1 w1 in
      get_body Fake.hi 1 res2 w2 = Some ([x68; x69], res2, w2) /\
      [x68; x69] <> @nil u8
  | None => False
  end.
Proof.
  vm_compute. split; [reflexivity | discriminate].
Qed.

(** C9.  [has_failed] is true exactly when the stored result code is a
    failure code, and it does not depend on the HTTP status: changing
    [status] to any value never changes the answer. *)
Theorem has_failed_iff_result_is_failure (P : httpc) (res : response) :
  (has_failed P res = true <-> R_FAILED P (result res) = true) /\
  (forall code : u32, has_failed P (set_status res code) = has_failed P res).
Proof.
  split; [reflexivity|]. intros code. reflexivity.
Qed.

(** A GET answered with status 404 on a transport where every call succeeds
    is not a failed request. *)
Example not_found_is_not_a_failure :
  let res :=
    fst (get Fake.not_found 0 "http://example.test/" None 0 true true []) in
  status res = 404 /\ has_failed Fake.not_found res = false.
Proof. split; reflexivity. Qed.

Lemma preparation_calls_split (ctx : httpcContext) (url : string)
    (headers : option string_map) (default_proxy : Z)
    (ssl keep_alive : bool) :
  map snd
    (preparation_steps HTTPC_METHOD_GET ctx url headers default_proxy ssl
       keep_alive) =
  common_calls ctx url headers default_proxy ssl
  ++ CallSetKeepAlive ctx (keep_alive_option keep_alive)
  :: (if keep_alive then [connection_keep_alive ctx] else []).
Proof.
  unfold preparation_steps, common_calls.
  destruct ssl, keep_alive; cbn [map app];
    rewrite ?map_app, ?map_map, <- ?app_assoc; reflexivity.
Qed.

(** C4.  Preparation stops at its first failing step.  Take the fixed order
    of steps for the given arguments and cut it at any step [name]: if the
    transport accepts every call before it and fails its call [c], then
    [setup_context] returns [false] with [failure] equal to [name] and
    [result] equal to the failing code, the log holds the calls up to [c]
    and none after it, and the public operation returns that response,
    context included, to its caller without any further call. *)
Theorem preparation_stops_at_first_failure (P : httpc) (op : operation)
    (ctx0 : httpcContext) (url : string) (headers : option string_map)
    (default_proxy : Z) (ssl keep_alive : bool) (w : log)
    (pre post : list step) (name : httpc_failure) (c : call) :
  R_FAILED P 0 = false ->
  preparation_steps HTTPC_METHOD_GET
    (opened_context P w url default_proxy ctx0) url headers default_proxy
    ssl keep_alive = pre ++ (name, c) :: post ->
  all_succeed P w (map snd pre) = true ->
  R_FAILED P (ret P (w ++ map snd pre ++ [c])) = true ->
  let w' := w ++ map snd pre ++ [c] in
  let res' :=
    set_result
      (set_failure
         (set_context (new_response ctx0)
            (opened_context P w url default_proxy ctx0)) name)
      (ret P w') in
  setup_context P (new_response ctx0) url (method_of op) headers
    default_proxy ssl keep_alive w = ((false, res'), w') /\
  request P op ctx0 url headers default_proxy ssl keep_alive w = (res', w') /\
  failure res' = name /\
  context res' = opened_context P w url default_proxy ctx0 /\
  has_failed P res' = true.
Proof.
  intros H0 Hsteps Hpre Hc w' res'.
  assert (Hsetup :
    setup_context P (new_response ctx0) url (method_of op) headers
      default_proxy ssl keep_alive w = ((false, res'), w')).
  { rewrite setup_context_steps by assumption.
    cbn [context new_response]. fold (opened_context P w url default_proxy ctx0).
    rewrite Hsteps, run_steps_first_failure by assumption. reflexivity. }
  split; [exact Hsetup|].
  split; [now apply request_returns_failed_preparation|].
  repeat split. exact Hc.
Qed.

Lemma preparation_stops_at_first_failure_witness :
  R_FAILED Fake.refuse_user_agent 0 = false /\
  preparation_steps HTTPC_METHOD_GET
    (opened_context Fake.refuse_user_agent [] Scenario.url 0 0) Scenario.url
    None 0 true true =
  Scenario.before_user_agent
  ++ (SET_USER_AGENT,
      CallAddRequestHeaderField 7 "User-Agent" CTRQ_USER_AGENT)
  :: Scenario.after_user_agent /\
  all_succeed Fake.refuse_user_agent []
    (map snd Scenario.before_user_agent) = true /\
  R_FAILED Fake.refuse_user_agent
    (ret Fake.refuse_user_agent
       ([] ++ map snd Scenario.before_user_agent
        ++ [CallAddRequestHeaderField 7 "User-Agent" CTRQ_USER_AGENT]))
  = true /\
  request Fake.refuse_user_agent OpGet 0 Scenario.url None 0 true true [] =
  (set_result (set_failure (set_context (new_response 0) 7) SET_USER_AGENT)
     (-1),
   [CallOpenContext HTTPC_METHOD_GET Scenario.url 0;
    CallSetSSLOpt 7 SSLCOPT_DisableVerify;
    CallAddRequestHeaderField 7 "User-Agent" CTRQ_USER_AGENT]).
Proof.
  do 4 (split; [reflexivity|]).
  exact (proj1 (proj2
    (preparation_stops_at_first_failure Fake.refuse_user_agent OpGet 0
       Scenario.url None 0 true true [] Scenario.before_user_agent
       Scenario.after_user_agent SET_USER_AGENT
       (CallAddRequestHeaderField 7 "User-Agent" CTRQ_USER_AGENT)
       eq_refl eq_refl eq_refl eq_refl))).
Defined.

(** The calls of [setup_context] are an initial segment of the calls of
    steps 1 to 4, the keep-alive flag and, when [keep_alive] is set, the
    literal header; the whole of it when preparation succeeds. *)
Lemma setup_context_calls_prefix (P : httpc) (res : response) (url : string)
    (method : HTTPC_RequestMethod) (headers : option string_map)
    (default_proxy : Z) (ssl keep_alive : bool) (w : log) :
  R_FAILED P 0 = false ->
  let ctx := opened_context P w url default_proxy (context res) in
  exists done rest,
    snd (setup_context P res url method headers default_proxy ssl
           keep_alive w) = w ++ done /\
    done ++ rest =
      common_calls ctx url headers default_proxy ssl
      ++ CallSetKeepAlive ctx (keep_alive_option keep_alive)
      :: (if keep_alive then [connection_keep_alive ctx] else []) /\
    (fst (fst (setup_context P res url method headers default_proxy ssl
                 keep_alive w)) = true -> rest = []).
Proof.
  intros H0 ctx. rewrite setup_context_steps by assumption.
  fold (opened_context P w url default_proxy (context res)). fold ctx.
  set (steps := preparation_steps _ ctx url headers default_proxy ssl
                  keep_alive).
  destruct (run_steps_prefix P steps w) as (done & rest & Hlog & Hsplit).
  unfold steps in Hsplit at 1. rewrite preparation_calls_split in Hsplit.
  exists done, rest.
  destruct (run_steps P steps w) as [[[name r]|] w1] eqn:Hrun;
    cbn [prepared fst snd] in *;
    (split; [assumption|]); (split; [now symmetry|]).
  - discriminate.
  - intros _. apply run_steps_success in Hrun.
    unfold steps in Hrun. rewrite preparation_calls_split in Hrun.
    rewrite Hlog in Hrun. apply app_inv_head in Hrun.
    rewrite <- Hrun in Hsplit. rewrite <- (app_nil_r done) in Hsplit at 1.
    apply app_inv_head in Hsplit. now symmetry.
Qed.

(** With [keep_alive = false], a [Connection: Keep-Alive] header reaches the
    transport only if the caller put it among the headers. *)
Lemma keep_alive_header_absent_when_disabled (P : httpc) (res : response)
    (url : string) (method : HTTPC_RequestMethod)
    (headers : option string_map) (default_proxy : Z) (ssl : bool)
    (w : log) (done : list call) :
  R_FAILED P 0 = false ->
  ~ In ("Connection", "Keep-Alive")
       (map (fun kv => (c_str (fst kv), c_str (snd kv))) (entries headers)) ->
  snd (setup_context P res url method headers default_proxy ssl false w) =
    w ++ done ->
  ~ In (connection_keep_alive
          (opened_context P w url default_proxy (context res))) done.
Proof.
  intros H0 Hcaller Hlog Hin.
  destruct (setup_context_calls_prefix P res url method headers default_proxy
              ssl false w H0) as (done' & rest & Hlog' & Hsplit & _).
  rewrite Hlog in Hlog'. apply app_inv_head in Hlog'. subst done'.
  assert (Hfull : In (connection_keep_alive
                        (opened_context P w url default_proxy (context res)))
                     (done ++ rest)) by (apply in_or_app; now left).
  rewrite Hsplit in Hfull. unfold common_calls, connection_keep_alive in Hfull.
  cbn [In app] in Hfull. destruct Hfull as [Hopen | Hfull]; [discriminate|].
  apply in_app_or in Hfull as [Hcommon | Hflag].
  - apply in_app_or in Hcommon as [Hssl | Hrest].
    + destruct ssl; simpl in Hssl; [|contradiction].
      destruct Hssl as [Hssl | []]. discriminate.
    + cbn [In] in Hrest. destruct Hrest as [Hagent | Hheader];
        [discriminate|].
      apply in_map_iff in Hheader as (kv & Hkv & Hmem).
      apply Hcaller. apply in_map_iff. exists kv. split; [|assumption].
      unfold header_step in Hkv. cbn [snd] in Hkv. now injection Hkv as -> ->.
  - cbn [In] in Hflag. destruct Hflag as [Hflag | []]. discriminate.
Qed.

Lemma preparation_steps_flag (ctx : httpcContext) (url : string)
    (headers : option string_map) (default_proxy : Z)
    (ssl keep_alive : bool) :
  preparation_steps HTTPC_METHOD_GET ctx url headers default_proxy ssl
    keep_alive =
  flag_steps ctx url headers default_proxy ssl keep_alive
  ++ (if keep_alive
      then [(SET_KEEP_ALIVE_HEADER, connection_keep_alive ctx)]
      else []).
Proof.
  unfold preparation_steps, flag_steps.
  destruct ssl; cbn [app]; rewrite <- app_assoc; reflexivity.
Qed.

Lemma flag_steps_calls (ctx : httpcContext) (url : string)
    (headers : option string_map) (default_proxy : Z)
    (ssl keep_alive : bool) :
  map snd (flag_steps ctx url headers default_proxy ssl keep_alive) =
  common_calls ctx url headers default_proxy ssl
  ++ [CallSetKeepAlive ctx (keep_alive_option keep_alive)].
Proof.
  unfold flag_steps, common_calls.
  destruct ssl; cbn [map app];
    rewrite ?map_app, ?map_map, <- ?app_assoc; reflexivity.
Qed.

(** When the transport accepts steps 1 to 5, [setup_context] makes exactly
    their calls and, with [keep_alive] set, one more: the literal header,
    whose answer decides what it returns. *)
Lemma setup_context_reaches_flag (P : httpc) (res : response) (url : string)
    (method : HTTPC_RequestMethod) (headers : option string_map)
    (default_proxy : Z) (ssl keep_alive : bool) (w : log) :
  R_FAILED P 0 = false ->
  let ctx := opened_context P w url default_proxy (context res) in
  let flagged :=
    common_calls ctx url headers default_proxy ssl
    ++ [CallSetKeepAlive ctx (keep_alive_option keep_alive)] in
  all_succeed P w flagged = true ->
  snd (setup_context P res url method headers default_proxy ssl keep_alive w)
    = (w ++ flagged)
      ++ (if keep_alive then [connection_keep_alive ctx] else []) /\
  fst (fst (setup_context P res url method headers default_proxy ssl
              keep_alive w))
    = (if keep_alive
       then negb (R_FAILED P
                    (ret P ((w ++ flagged) ++ [connection_keep_alive ctx])))
       else true).
Proof.
  intros H0 ctx flagged Hok. subst flagged.
  rewrite <- (flag_steps_calls ctx url headers default_proxy ssl keep_alive)
    in *.
  rewrite setup_context_steps by assumption.
  fold (opened_context P w url default_proxy (context res)). fold ctx.
  rewrite preparation_steps_flag, run_steps_app.
  rewrite (run_steps_all_succeed P _ w Hok).
  destruct keep_alive; cbn [run_steps].
  - match goal with
    | |- context [R_FAILED P (ret P ?l)] => destruct (R_FAILED P (ret P l))
    end; cbn [prepared fst snd negb]; split; reflexivity.
  - cbn [prepared fst snd]. now rewrite app_nil_r.
Qed.

(** C8.  The [Connection: Keep-Alive] step belongs to [keep_alive = true]
    only, and follows the flag.
    - With [keep_alive = false], whatever the transport answers, the calls
      of [setup_context] are an initial segment of steps 1 to 4 followed by
      the call that clears the keep-alive flag: nothing is called after the
      flag and the literal header step is not among the calls.  When the
      transport accepts steps 1 to 5 the calls are exactly that list and
      preparation succeeds.
    - With [keep_alive = true], when the transport accepts steps 1 to 4 and
      the call that sets the flag, [setup_context] makes exactly those
      calls and then the literal [Connection: Keep-Alive] header call: the
      header is added, immediately after the flag has been set, and
      preparation succeeds exactly when the header call does.  Whatever the
      transport answers, the calls are an initial segment of that list. *)
Theorem keep_alive_header_follows_flag (P : httpc) (res : response)
    (url : string) (method : HTTPC_RequestMethod)
    (headers : option string_map) (default_proxy : Z) (ssl : bool)
    (w : log) :
  R_FAILED P 0 = false ->
  let ctx := opened_context P w url default_proxy (context res) in
  let common := common_calls ctx url headers default_proxy ssl in
  (exists done rest,
     snd (setup_context P res url method headers default_proxy ssl false w)
       = w ++ done /\
     done ++ rest = common ++ [CallSetKeepAlive ctx HTTPC_KEEPALIVE_DISABLED])
  /\
  (exists done rest,
     snd (setup_context P res url method headers default_proxy ssl true w)
       = w ++ done /\
     done ++ rest =
       common ++ [CallSetKeepAlive ctx HTTPC_KEEPALIVE_ENABLED;
                  CallAddRequestHeaderField ctx "Connection" "Keep-Alive"] /\
     (fst (fst (setup_context P res url method headers default_proxy ssl
                  true w)) = true -> rest = []))
  /\
  (all_succeed P w (common ++ [CallSetKeepAlive ctx HTTPC_KEEPALIVE_ENABLED])
     = true ->
   snd (setup_context P res url method headers default_proxy ssl true w)
     = w ++ common
       ++ [CallSetKeepAlive ctx HTTPC_KEEPALIVE_ENABLED;
           CallAddRequestHeaderField ctx "Connection" "Keep-Alive"] /\
   fst (fst (setup_context P res url method headers default_proxy ssl true
               w))
     = negb (R_FAILED P
               (ret P
                  (w ++ common
                   ++ [CallSetKeepAlive ctx HTTPC_KEEPALIVE_ENABLED;
                       CallAddRequestHeaderField ctx "Connection"
                         "Keep-Alive"]))))
  /\
  (all_succeed P w (common ++ [CallSetKeepAlive ctx HTTPC_KEEPALIVE_DISABLED])
     = true ->
   snd (setup_context P res url method headers default_proxy ssl false w)
     = w ++ common ++ [CallSetKeepAlive ctx HTTPC_KEEPALIVE_DISABLED] /\
   fst (fst (setup_context P res url method headers default_proxy ssl false
               w)) = true).
Proof.
  intros H0 ctx common. split; [|split; [|split]].
  - destruct (setup_context_calls_prefix P res url method headers
                default_proxy ssl false w H0)
      as (done & rest & Hlog & Hsplit & _).
    now exists done, rest.
  - exact (setup_context_calls_prefix P res url method headers default_proxy
             ssl true w H0).
  - intros Hok.
    destruct (setup_context_reaches_flag P res url method headers
                default_proxy ssl true w H0 Hok) as [Hlog Hret].
    cbv zeta in Hlog, Hret. fold ctx common in Hlog, Hret.
    unfold connection_keep_alive, keep_alive_option in Hlog, Hret.
    rewrite <- !app_assoc in Hlog, Hret. cbn [app] in Hlog, Hret.
    split; assumption.
  - intros Hok.
    destruct (setup_context_reaches_flag P res url method headers
                default_proxy ssl false w H0 Hok) as [Hlog Hret].
    cbv zeta in Hlog, Hret. fold ctx common in Hlog, Hret.
    unfold keep_alive_option in Hlog. rewrite app_nil_r in Hlog.
    split; assumption.
Qed.

(** GET-style preparation with one caller header on a transport that
    accepts every call: the flag is set, then the header is added. *)
Lemma keep_alive_header_follows_flag_witness :
  R_FAILED Fake.hi 0 = false /\
  all_succeed Fake.hi []
    (common_calls 7 Scenario.url (Some [("Accept", "*/*")]) 0 true
     ++ [CallSetKeepAlive 7 HTTPC_KEEPALIVE_ENABLED]) = true /\
  snd (setup_context Fake.hi (new_response 0) Scenario.url HTTPC_METHOD_POST
         (Some [("Accept", "*/*")]) 0 true true []) =
    [CallOpenContext HTTPC_METHOD_GET Scenario.url 0;
     CallSetSSLOpt 7 SSLCOPT_DisableVerify;
     CallAddRequestHeaderField 7 "User-Agent" CTRQ_USER_AGENT;
     CallAddRequestHeaderField 7 "Accept" "*/*";
     CallSetKeepAlive 7 HTTPC_KEEPALIVE_ENABLED;
     CallAddRequestHeaderField 7 "Connection" "Keep-Alive"] /\
  all_succeed Fake.hi []
    (common_calls 7 Scenario.url (Some [("Accept", "*/*")]) 0 true
     ++ [CallSetKeepAlive 7 HTTPC_KEEPALIVE_DISABLED]) = true /\
  snd (setup_context Fake.hi (new_response 0) Scenario.url HTTPC_METHOD_POST
         (Some [("Accept", "*/*")]) 0 true false []) =
    [CallOpenContext HTTPC_METHOD_GET Scenario.url 0;
     CallSetSSLOpt 7 SSLCOPT_DisableVerify;
     CallAddRequestHeaderField 7 "User-Agent" CTRQ_USER_AGENT;
     CallAddRequestHeaderField 7 "Accept" "*/*";
     CallSetKeepAlive 7 HTTPC_KEEPALIVE_DISABLED].
Proof.
  split; [reflexivity|]. split; [reflexivity|].
  split;
    [exact (proj1
       (proj1 (proj2 (proj2
          (keep_alive_header_follows_flag Fake.hi (new_response 0)
             Scenario.url HTTPC_METHOD_POST (Some [("Accept", "*/*")]) 0
             true [] eq_refl))) eq_refl))|].
  split; [reflexivity|].
  exact (proj1
    (proj2 (proj2 (proj2
       (keep_alive_header_follows_flag Fake.hi (new_response 0)
          Scenario.url HTTPC_METHOD_POST (Some [("Accept", "*/*")]) 0
          true [] eq_refl))) eq_refl)).
Defined.





(** C6.  [get_body] is idempotent.  Once a call of [get_body] has returned
    the bytes [b], any number of further calls, whatever time they are
    allowed, return the same bytes [b] and leave the response and the call
    log as the first call left them: the transport is called during the
    first call at most, and what that call sends are download calls. *)
Theorem get_body_idempotent (P : httpc) (fuel : nat) (res : response)
    (w : log) (b : list u8) (res1 : response) (w1 : log) :
  get_body P fuel res w = Some (b, res1, w1) ->
  (forall fuel' : nat, get_body P fuel' res1 w1 = Some (b, res1, w1)) /\
  (forall n fuel' : nat,
     get_body_again P n fuel' (b, res1, w1) = Some (b, res1, w1)) /\
  (exists k : nat, w1 = w ++ repeat (download_call res) k).
Proof.
  intros H.
  assert (Hagain : forall fuel', get_body P fuel' res1 w1 = Some (b, res1, w1))
    by (intros fuel'; exact (get_body_twice P fuel fuel' res w b res1 w1 H)).
  split; [exact Hagain|]. split.
  - intros n fuel'. induction n as [|n IH]; simpl; [reflexivity|].
    now rewrite Hagain.
  - unfold get_body in H.
    destruct (body_populated res || http_context_closed res).
    + injection H as _ _ <-. exists O. simpl. now rewrite app_nil_r.
    + destruct (get_body_loop P fuel res _ _ w) as [[res' w']|] eqn:E;
        [|discriminate].
      injection H as _ _ <-.
      apply get_body_loop_stops in E as ((n & _ & Hlog) & _).
      now exists (S n).
Qed.

Lemma get_body_idempotent_witness :
  get_body Fake.nul_body 5 (fst Scenario.fetched) (snd Scenario.fetched) =
    Some Scenario.first_read /\
  fst (fst Scenario.first_read) = [x61; x00; x62] /\
  (forall fuel' : nat,
     get_body Fake.nul_body fuel' (snd (fst Scenario.first_read))
       (snd Scenario.first_read) = Some Scenario.first_read) /\
  (forall n fuel' : nat,
     get_body_again Fake.nul_body n fuel' Scenario.first_read =
     Some Scenario.first_read) /\
  (exists k : nat,
     snd Scenario.first_read =
     snd Scenario.fetched ++ repeat (download_call (fst Scenario.fetched)) k).
Proof.
  split; [reflexivity|]. split; [reflexivity|].
  exact (get_body_idempotent Fake.nul_body 5 (fst Scenario.fetched)
           (snd Scenario.fetched) (fst (fst Scenario.first_read))
           (snd (fst Scenario.first_read)) (snd Scenario.first_read)
           eq_refl).
Defined.

(** The first [get_body] returns whenever the transport stops answering
    "download pending" within the rounds allowed. *)
Lemma get_body_returns (P : httpc) (k fuel : nat) (res : response)
    (w : log) :
  (k < fuel)%nat ->
  ret P (w ++ repeat (download_call res) (S k)) <>
    HTTPC_RESULTCODE_DOWNLOADPENDING P ->
  exists out, get_body P fuel res w = Some out.
Proof.
  intros Hk Hstop. unfold get_body.
  destruct (body_populated res || http_context_closed res); [now eexists|].
  destruct (get_body_loop_returns P k fuel res
              (repeat x00 (Z.to_nat CTRQ_DOWNLOAD_BUFFER_SIZE)) 0 w Hk Hstop)
    as [[res' w'] ->].
  now eexists.
Qed.

(** C7.  [get_body_string] is the body read as text.  On a response whose
    private flags are as every operation leaves them, if [get_body] returns
    the bytes [b] then [get_body_string] returns the string made of exactly
    those bytes: it has the length of [b] and converts back to [b], NUL
    bytes included; it makes the same transport calls as [get_body]. *)
Theorem get_body_string_is_body_as_text (P : httpc) (fuel : nat)
    (res : response) (w : log) (b : list u8) (res1 : response) (w1 : log) :
  http_context_closed res = false ->
  body_string_populated res = false ->
  get_body P fuel res w = Some (b, res1, w1) ->
  get_body_string P fuel res w =
    Some (string_of_data b, set_body_string res1 (string_of_data b), w1) /\
  list_byte_of_string (string_of_data b) = b /\
  String.length (string_of_data b) = List.length b /\
  body (set_body_string res1 (string_of_data b)) = b.
Proof.
  intros Hclosed Hcached Hbody.
  unfold get_body_string. rewrite Hclosed, Hcached, Hbody. cbn [orb].
  apply get_body_private in Hbody as (_ & _ & _ & _ & Hb).
  repeat split.
  - apply string_of_data_bytes.
  - apply string_of_data_length.
  - now symmetry.
Qed.

Lemma get_body_string_is_body_as_text_witness :
  http_context_closed (fst Scenario.fetched) = false /\
  body_string_populated (fst Scenario.fetched) = false /\
  get_body Fake.nul_body 5 (fst Scenario.fetched) (snd Scenario.fetched) =
    Some Scenario.first_read /\
  fst (fst Scenario.first_read) = [x61; x00; x62] /\
  get_body_string Fake.nul_body 5 (fst Scenario.fetched)
    (snd Scenario.fetched) =
    Some (string_of_data (fst (fst Scenario.first_read)),
          set_body_string (snd (fst Scenario.first_read))
            (string_of_data (fst (fst Scenario.first_read))),
          snd Scenario.first_read) /\
  list_byte_of_string (string_of_data (fst (fst Scenario.first_read))) =
    fst (fst Scenario.first_read) /\
  String.length (string_of_data (fst (fst Scenario.first_read))) =
    List.length (fst (fst Scenario.first_read)) /\
  body (set_body_string (snd (fst Scenario.first_read))
          (string_of_data (fst (fst Scenario.first_read)))) =
    fst (fst Scenario.first_read).
Proof.
  do 4 (split; [reflexivity|]).
  exact (get_body_string_is_body_as_text Fake.nul_body 5
           (fst Scenario.fetched) (snd Scenario.fetched)
           (fst (fst Scenario.first_read)) (snd (fst Scenario.first_read))
           (snd Scenario.first_read) eq_refl eq_refl eq_refl).
Defined.



(* ================================================================= *)
(** ** The orchestrators in one shape *)

Section Shape.

Variable P : httpc.

(** Every public operation is [orchestrate] on its payload: the method it
    passes to [setup_context] plays no part. *)
Lemma request_orchestrate (op : operation) (ctx0 : httpcContext)
    (url : string) (headers : option string_map) (default_proxy : Z)
    (ssl keep_alive : bool) :
  request P op ctx0 url headers default_proxy ssl keep_alive =
  orchestrate P (payload_of op) ctx0 url headers default_proxy ssl
    keep_alive.
Proof. destruct op; reflexivity. Qed.

End Shape.

(* ================================================================= *)
(** ** Outcome of a request *)

Section Outcome.

Variable P : httpc.

Local Ltac case_failed :=
  match goal with
  | |- context [R_FAILED P ?r] => destruct (R_FAILED P r) eqn:?
  end.

(** A step that failed on a fresh response leaves it halted; a step that
    succeeded leaves it fresh. *)
Local Ltac settle Hfresh :=
  destruct Hfresh as [[Hnone Hcode] Hstatus];
  first
    [ now (repeat split; cbn; assumption)
    | split; [cbn; discriminate|]; split; [cbn; assumption|];
      right; cbn; assumption ].

Lemma setup_context_outcome (res : response) (url : string)
    (method : HTTPC_RequestMethod) (headers : option string_map)
    (default_proxy : Z) (ssl keep_alive : bool) (w : log) :
  fresh P res ->
  let out :=
    fst (setup_context P res url method headers default_proxy ssl
           keep_alive w) in
  if fst out then fresh P (snd out) else halted P (snd out).
Proof.
  intros Hfresh.
  unfold setup_context, httpcOpenContext, httpcSetSSLOpt,
    httpcAddRequestHeaderField, httpcSetKeepAlive, invoke,
    _CTRQ_FALSE_IF_FAILED, mret, mbind.
  case_failed; [cbn [fst snd]; settle Hfresh|].
  destruct ssl; [case_failed; [cbn [fst snd]; settle Hfresh|] |];
    (case_failed; [cbn [fst snd]; settle Hfresh|];
     destruct (add_headers P _ headers _) as [r w'];
     case_failed; [cbn [fst snd]; settle Hfresh|];
     case_failed; [cbn [fst snd]; settle Hfresh|];
     destruct keep_alive; [case_failed|];
     cbn [fst snd]; settle Hfresh).
Qed.

Lemma add_raw_post_data_outcome (res : response) (data : list u8)
    (len : u32) (w : log) :
  fresh P res ->
  let out := fst (add_raw_post_data P res data len w) in
  if fst out then fresh P (snd out) else halted P (snd out).
Proof.
  intros Hfresh.
  unfold add_raw_post_data, httpcAddPostDataRaw, invoke, mret, mbind.
  case_failed; cbn [fst snd]; settle Hfresh.
Qed.

Lemma add_ascii_post_params_outcome (params : string_map) (res : response)
    (w : log) :
  fresh P res ->
  let out := fst (add_ascii_post_params P res params w) in
  if fst out then fresh P (snd out) else halted P (snd out).
Proof.
  revert res w; induction params as [|[k v] params IH]; intros res w Hfresh.
  - exact Hfresh.
  - cbn [add_ascii_post_params].
    unfold add_ascii_post_param, httpcAddPostDataAscii, invoke, mret, mbind.
    case_failed; cbn [negb fst snd].
    + settle Hfresh.
    + apply IH. settle Hfresh.
Qed.

Lemma attach_outcome (p : payload) (res : response) (w : log) :
  fresh P res ->
  let out := fst (attach P p res w) in
  if fst out then fresh P (snd out) else halted P (snd out).
Proof.
  destruct p as [|data len|params]; cbn [attach].
  - intros Hfresh. exact Hfresh.
  - apply add_raw_post_data_outcome.
  - apply add_ascii_post_params_outcome.
Qed.

Lemma perform_request_outcome (res : response) (w : log) :
  fresh P res ->
  let out := fst (perform_request P res w) in
  if fst out then fine P (snd out) else halted P (snd out).
Proof.
  intros Hfresh.
  unfold perform_request, httpcBeginRequest, httpcGetResponseStatusCode,
    invoke, _CTRQ_FALSE_IF_FAILED, mret, mbind.
  case_failed; cbn [fst snd]; [settle Hfresh|].
  destruct Hfresh as [[Hnone Hcode] Hstatus].
  case_failed; cbn [fst snd].
  - split; [cbn; discriminate|]. split; [cbn; assumption|]. now left.
  - split; cbn; assumption.
Qed.

(** What a public operation returns either records no failure at all or
    records one failed step. *)
Lemma orchestrate_outcome (p : payload) (ctx0 : httpcContext) (url : string)
    (headers : option string_map) (default_proxy : Z)
    (ssl keep_alive : bool) (w : log) :
  R_FAILED P 0 = false ->
  let res :=
    fst (orchestrate P p ctx0 url headers default_proxy ssl keep_alive w) in
  fine P res \/ halted P res.
Proof.
  intros H0.
  assert (Hnew : fresh P (new_response ctx0)) by (repeat split; assumption).
  unfold orchestrate, mbind.
  pose proof (setup_context_outcome (new_response ctx0) url HTTPC_METHOD_GET
                headers default_proxy ssl keep_alive w Hnew) as H1.
  destruct (setup_context P _ url _ headers default_proxy ssl keep_alive w)
    as [[ok1 res1] w1].
  cbn [fst snd] in H1. destruct ok1; cbn [negb mret fst]; [|now right].
  pose proof (attach_outcome p res1 w1 H1) as H2.
  destruct (attach P p res1 w1) as [[ok2 res2] w2].
  cbn [fst snd] in H2. destruct ok2; cbn [negb mret fst]; [|now right].
  pose proof (perform_request_outcome res2 w2 H2) as H3.
  destruct (perform_request P res2 w2) as [[ok3 res3] w3].
  cbn [fst snd] in H3. destruct ok3; cbn [mret fst]; [now left | now right].
Qed.

End Outcome.

(* ================================================================= *)
(** ** Calls of a request *)

Section Calls.

Variable P : httpc.

Local Ltac case_failed :=
  match goal with
  | |- context [R_FAILED P ?r] => destruct (R_FAILED P r) eqn:?
  end.

Lemma extends_by_refl (Q : call -> bool) (w : log) : extends_by Q w w.
Proof. exists []. now rewrite app_nil_r. Qed.

Lemma extends_by_trans (Q : call -> bool) (w1 w2 w3 : log) :
  extends_by Q w1 w2 -> extends_by Q w2 w3 -> extends_by Q w1 w3.
Proof.
  intros (d1 & -> & H1) (d2 & -> & H2). exists (d1 ++ d2).
  now rewrite app_assoc, forallb_app, H1, H2.
Qed.

Lemma extends_by_weaken (Q Q' : call -> bool) (w w' : log) :
  (forall c, Q c = true -> Q' c = true) ->
  extends_by Q w w' -> extends_by Q' w w'.
Proof.
  intros Himp (d & -> & Hd). exists d. split; [reflexivity|].
  rewrite forallb_forall in *. auto.
Qed.

Lemma extends_by_one (Q : call -> bool) (w : log) (c : call) :
  Q c = true -> extends_by Q w (w ++ [c]).
Proof. intros H. exists [c]. simpl. now rewrite H. Qed.

Lemma perform_request_calls (res : response) (w : log) :
  extends_by is_executor_call w (snd (perform_request P res w)).
Proof.
  unfold perform_request, httpcBeginRequest, httpcGetResponseStatusCode,
    invoke, _CTRQ_FALSE_IF_FAILED, mret, mbind.
  case_failed; cbn [snd]; [now apply extends_by_one|].
  apply extends_by_trans with (w2 := w ++ [CallBeginRequest (context res)]);
    [now apply extends_by_one|].
  case_failed; cbn [snd]; now apply extends_by_one.
Qed.

Lemma add_raw_post_data_calls (res : response) (data : list u8) (len : u32)
    (w : log) :
  extends_by is_attach_call w (snd (add_raw_post_data P res data len w)).
Proof.
  unfold add_raw_post_data, httpcAddPostDataRaw, invoke, mret, mbind.
  case_failed; cbn [snd]; now apply extends_by_one.
Qed.

Lemma add_ascii_post_params_calls (params : string_map) (res : response)
    (w : log) :
  extends_by is_attach_call w (snd (add_ascii_post_params P res params w)).
Proof.
  revert res w; induction params as [|[k v] params IH]; intros res w.
  - apply extends_by_refl.
  - cbn [add_ascii_post_params].
    unfold add_ascii_post_param, httpcAddPostDataAscii, invoke, mret, mbind.
    case_failed; cbn [negb fst snd]; [now apply extends_by_one|].
    eapply extends_by_trans; [|apply IH]. now apply extends_by_one.
Qed.

Lemma attach_calls (p : payload) (res : response) (w : log) :
  extends_by is_attach_call w (snd (attach P p res w)).
Proof.
  destruct p as [|data len|params]; cbn [attach].
  - apply extends_by_refl.
  - apply add_raw_post_data_calls.
  - apply add_ascii_post_params_calls.
Qed.

Lemma setup_context_preparation_calls (res : response) (url : string)
    (method : HTTPC_RequestMethod) (headers : option string_map)
    (default_proxy : Z) (ssl keep_alive : bool) (w : log) :
  extends_by is_preparation_call w
    (snd (setup_context P res url method headers default_proxy ssl
            keep_alive w)).
Proof.
  destruct (setup_context_calls P res url method headers default_proxy ssl
              keep_alive w) as (done & Hlog & Hprep).
  eexists. split; [exact Hlog|]. simpl. exact Hprep.
Qed.

Lemma orchestrate_calls (p : payload) (ctx0 : httpcContext) (url : string)
    (headers : option string_map) (default_proxy : Z)
    (ssl keep_alive : bool) (w : log) :
  extends_by is_request_call w
    (snd (orchestrate P p ctx0 url headers default_proxy ssl keep_alive w)).
Proof.
  unfold orchestrate, mbind.
  pose proof (setup_context_preparation_calls (new_response ctx0) url
                HTTPC_METHOD_GET headers default_proxy ssl keep_alive w)
    as H1.
  apply extends_by_weaken with (Q' := is_request_call) in H1;
    [|intros c Hc; unfold is_request_call; now rewrite Hc].
  destruct (setup_context P _ url _ headers default_proxy ssl keep_alive w)
    as [[ok1 res1] w1].
  cbn [snd] in H1. destruct ok1; cbn [negb mret snd]; [|exact H1].
  pose proof (attach_calls p res1 w1) as H2.
  apply extends_by_weaken with (Q' := is_request_call) in H2;
    [|intros c Hc; unfold is_request_call; rewrite Hc;
      now rewrite orb_true_r].
  destruct (attach P p res1 w1) as [[ok2 res2] w2].
  cbn [snd] in H2.
  assert (H12 : extends_by is_request_call w w2)
    by (eapply extends_by_trans; eassumption).
  destruct ok2; cbn [negb mret snd]; [|exact H12].
  pose proof (perform_request_calls res2 w2) as H3.
  apply extends_by_weaken with (Q' := is_request_call) in H3;
    [|intros c Hc; unfold is_request_call; rewrite Hc;
      now rewrite orb_true_r].
  destruct (perform_request P res2 w2) as [[ok3 res3] w3].
  cbn [snd] in H3. cbn [mret snd]. eapply extends_by_trans; eassumption.
Qed.

Lemma request_call_not_response_call (c : call) :
  is_request_call c = true -> negb (is_response_call c) = true.
Proof. now destruct c. Qed.

End Calls.

(* ================================================================= *)
(** ** Steps that succeed, steps that fail *)

Section Success.

Variable P : httpc.

Lemma all_succeed_app (w : log) (a b : list call) :
  all_succeed P w (a ++ b) =
  all_succeed P w a && all_succeed P (w ++ a) b.
Proof.
  revert w; induction a as [|c a IH]; intros w; simpl.
  - now rewrite app_nil_r.
  - rewrite IH, <- app_assoc, andb_assoc. reflexivity.
Qed.

(** The method handed to [setup_context] is not used. *)
Lemma setup_context_method (m1 m2 : HTTPC_RequestMethod) (res : response)
    (url : string) (headers : option string_map) (default_proxy : Z)
    (ssl keep_alive : bool) :
  setup_context P res url m1 headers default_proxy ssl keep_alive =
  setup_context P res url m2 headers default_proxy ssl keep_alive.
Proof. reflexivity. Qed.

Lemma add_ascii_post_params_all_succeed (params : string_map)
    (res : response) (w : log) :
  all_succeed P w (map (field_call (context res)) params) = true ->
  exists res',
    add_ascii_post_params P res params w =
      ((true, res'), w ++ map (field_call (context res)) params) /\
    failure res' = failure res /\ status res' = status res /\
    context res' = context res /\ private_of res' = private_of res /\
    (R_FAILED P (result res) = false -> R_FAILED P (result res') = false).
Proof.
  revert res w; induction params as [|[k v] params IH]; intros res w.
  - intros _. exists res. cbn. rewrite app_nil_r. tauto.
  - cbn [map all_succeed add_ascii_post_params]. intros Hok.
    apply andb_true_iff in Hok as [Hc Hok]. apply negb_true_iff in Hc.
    unfold add_ascii_post_param, httpcAddPostDataAscii, invoke, mret, mbind.
    unfold field_call at 1 in Hc. cbn [fst snd] in Hc. rewrite Hc.
    cbn [negb].
    set (c := CallAddPostDataAscii (context res) (c_str k) (c_str v)) in *.
    destruct (IH (set_result res (ret P (w ++ [c]))) (w ++ [c]) Hok)
      as (res' & Hrun & Hf & Hs & Hctx & Hp & Hr).
    exists res'. rewrite Hrun. cbn [context set_result].
    rewrite <- app_assoc. split; [reflexivity|].
    split; [exact Hf|]. split; [exact Hs|]. split; [exact Hctx|].
    split; [exact Hp|]. intros _. apply Hr. exact Hc.
Qed.

Lemma attach_all_succeed (p : payload) (res : response) (w : log) :
  all_succeed P w (body_calls p (context res)) = true ->
  exists res',
    attach P p res w = ((true, res'), w ++ body_calls p (context res)) /\
    failure res' = failure res /\ status res' = status res /\
    context res' = context res /\ private_of res' = private_of res /\
    (R_FAILED P (result res) = false -> R_FAILED P (result res') = false).
Proof.
  destruct p as [|data len|params]; cbn [attach body_calls].
  - intros _. exists res. cbn. rewrite app_nil_r. tauto.
  - cbn [all_succeed]. rewrite andb_true_r. intros Hc.
    apply negb_true_iff in Hc.
    unfold add_raw_post_data, httpcAddPostDataRaw, invoke, mret, mbind.
    rewrite Hc. eexists. split; [reflexivity|].
    repeat split; now destruct res.
  - apply add_ascii_post_params_all_succeed.
Qed.

Lemma perform_request_all_succeed (res : response) (w : log) :
  all_succeed P w (executor_calls (context res)) = true ->
  perform_request P res w =
  ((true,
    set_status res
      (out_status P (w ++ executor_calls (context res)) (status res))),
   w ++ executor_calls (context res)).
Proof.
  unfold executor_calls. cbn [all_succeed]. rewrite andb_true_r.
  intros Hok. apply andb_true_iff in Hok as [Hb Hs].
  apply negb_true_iff in Hb. apply negb_true_iff in Hs.
  unfold perform_request, httpcBeginRequest, httpcGetResponseStatusCode,
    invoke, _CTRQ_FALSE_IF_FAILED, mret, mbind.
  rewrite Hb. cbn [context set_status]. rewrite Hs.
  rewrite <- app_assoc. reflexivity.
Qed.

(** The form fields before the first one the transport refuses are
    attached in order, the refused one is attached last, and the fields
    after it are not attached. *)
Lemma add_ascii_post_params_stops (pre post : string_map) (k v : string)
    (res : response) (w : log) :
  all_succeed P w (map (field_call (context res)) pre) = true ->
  R_FAILED P
    (ret P (w ++ map (field_call (context res)) pre
            ++ [field_call (context res) (k, v)])) = true ->
  add_ascii_post_params P res (pre ++ (k, v) :: post) w =
  ((false,
    set_failure
      (set_result res
         (ret P (w ++ map (field_call (context res)) pre
                 ++ [field_call (context res) (k, v)])))
      ADD_ASCII_POST_PARAM),
   w ++ map (field_call (context res)) pre
   ++ [field_call (context res) (k, v)]).
Proof.
  revert res w; induction pre as [|[k' v'] pre IH]; intros res w.
  - intros _ Hfail. cbn [app map add_ascii_post_params] in *.
    unfold add_ascii_post_param, httpcAddPostDataAscii, invoke, mret, mbind.
    unfold field_call in Hfail. cbn [fst snd] in Hfail. rewrite Hfail.
    reflexivity.
  - cbn [app map all_succeed add_ascii_post_params]. intros Hok Hfail.
    apply andb_true_iff in Hok as [Hc Hok]. apply negb_true_iff in Hc.
    unfold add_ascii_post_param, httpcAddPostDataAscii, invoke, mret, mbind.
    unfold field_call at 1 in Hc. cbn [fst snd] in Hc. rewrite Hc.
    cbn [negb].
    set (c := CallAddPostDataAscii (context res) (c_str k') (c_str v')) in *.
    rewrite (IH (set_result res (ret P (w ++ [c]))) (w ++ [c]));
      cbn [context set_result]; rewrite <- ?app_assoc; try assumption.
    reflexivity.
Qed.

End Success.

(* ================================================================= *)
(** ** Further properties of the orchestrators *)

(** X1.  On the response of every public operation, [has_failed] is true
    exactly when a failed step is recorded in [failure]: a response with
    [failure = NONE] never reports a failure, and every recorded step comes
    with a failure code in [result]. *)
Theorem failure_recorded_iff_has_failed (P : httpc) (op : operation)
    (ctx0 : httpcContext) (url : string) (headers : option string_map)
    (default_proxy : Z) (ssl keep_alive : bool) (w : log) :
  R_FAILED P 0 = false ->
  let res :=
    fst (request P op ctx0 url headers default_proxy ssl keep_alive w) in
  has_failed P res = true <-> failure res <> NONE.
Proof.
  intros H0. rewrite request_orchestrate.
  destruct (orchestrate_outcome P (payload_of op) ctx0 url headers
              default_proxy ssl keep_alive w H0) as [[Hn Hr] | (Hn & Hr & _)];
    cbv zeta; unfold has_failed; rewrite Hr; split; intros H;
    try discriminate; try assumption; try reflexivity.
  now elim H.
Qed.

Lemma failure_recorded_iff_has_failed_witness :
  R_FAILED Fake.refuse_b 0 = false /\
  (has_failed Fake.refuse_b
     (fst (request Fake.refuse_b (OpPostParams Scenario.form) 0 Scenario.url
             None 0 true true [])) = true <->
   failure
     (fst (request Fake.refuse_b (OpPostParams Scenario.form) 0 Scenario.url
             None 0 true true [])) <> NONE).
Proof.
  split; [reflexivity|].
  exact (failure_recorded_iff_has_failed Fake.refuse_b
           (OpPostParams Scenario.form) 0 Scenario.url None 0 true true []
           eq_refl).
Defined.

(** X2.  On the response of every public operation, [status] is 0 whenever
    the recorded failed step is any step other than the status read: a
    failure of preparation, of body attachment or of begin-request leaves
    no status behind. *)
Theorem status_is_zero_before_status_read (P : httpc) (op : operation)
    (ctx0 : httpcContext) (url : string) (headers : option string_map)
    (default_proxy : Z) (ssl keep_alive : bool) (w : log) :
  R_FAILED P 0 = false ->
  failure (fst (request P op ctx0 url headers default_proxy ssl keep_alive w))
    <> NONE ->
  failure (fst (request P op ctx0 url headers default_proxy ssl keep_alive w))
    <> GET_RESPONSE_STATUS_CODE ->
  status (fst (request P op ctx0 url headers default_proxy ssl keep_alive w))
    = 0.
Proof.
  rewrite request_orchestrate. intros H0 Hnone Hread.
  destruct (orchestrate_outcome P (payload_of op) ctx0 url headers
              default_proxy ssl keep_alive w H0)
    as [[Hn _] | (_ & _ & [Hs | Hs])]; cbv zeta in *.
  - now elim Hnone.
  - now elim Hread.
  - exact Hs.
Qed.

Lemma status_is_zero_before_status_read_witness :
  R_FAILED Fake.refuse_user_agent 0 = false /\
  failure
    (fst (request Fake.refuse_user_agent OpDelete 0 Scenario.url None 0 true
            true [])) <> NONE /\
  failure
    (fst (request Fake.refuse_user_agent OpDelete 0 Scenario.url None 0 true
            true [])) <> GET_RESPONSE_STATUS_CODE /\
  status
    (fst (request Fake.refuse_user_agent OpDelete 0 Scenario.url None 0 true
            true [])) = 0.
Proof.
  assert (H1 :
    failure
      (fst (request Fake.refuse_user_agent OpDelete 0 Scenario.url None 0
              true true [])) <> NONE) by (vm_compute; discriminate).
  assert (H2 :
    failure
      (fst (request Fake.refuse_user_agent OpDelete 0 Scenario.url None 0
              true true [])) <> GET_RESPONSE_STATUS_CODE)
    by (vm_compute; discriminate).
  split; [reflexivity|]. split; [exact H1|]. split; [exact H2|].
  exact (status_is_zero_before_status_read Fake.refuse_user_agent OpDelete 0
           Scenario.url None 0 true true [] eq_refl H1 H2).
Defined.

(** X3.  The public operations are lazy and keep the context: none of the
    calls they make is a download, a header read or a release of the
    context, and the response they return has an empty, unpopulated body,
    no cached text and a clear closed flag. *)
Theorem request_never_downloads_or_releases (P : httpc) (op : operation)
    (ctx0 : httpcContext) (url : string) (headers : option string_map)
    (default_proxy : Z) (ssl keep_alive : bool) (w : log) :
  (exists done,
     snd (request P op ctx0 url headers default_proxy ssl keep_alive w) =
       w ++ done /\
     forallb (fun c => negb (is_response_call c)) done = true) /\
  private_of
    (fst (request P op ctx0 url headers default_proxy ssl keep_alive w)) =
  (false, [], false, "", false).
Proof.
  split; [|apply request_private].
  rewrite request_orchestrate.
  destruct (orchestrate_calls P (payload_of op) ctx0 url headers
              default_proxy ssl keep_alive w) as (done & Hlog & Hdone).
  exists done. split; [exact Hlog|].
  rewrite forallb_forall in *. intros c Hc.
  apply request_call_not_response_call. now apply Hdone.
Qed.

(** X4.  When the transport accepts every call of a request, the public
    operation makes exactly the calls of the preparation, of the body and of
    the executor, in that order, and returns a response with no failure
    recorded, [has_failed] false, the status the transport gave and the
    context the open call left. *)
Theorem successful_request (P : httpc) (op : operation)
    (ctx0 : httpcContext) (url : string) (headers : option string_map)
    (default_proxy : Z) (ssl keep_alive : bool) (w : log) :
  R_FAILED P 0 = false ->
  all_succeed P w
    (request_calls (payload_of op)
       (opened_context P w url default_proxy ctx0) url headers default_proxy
       ssl keep_alive) = true ->
  let ctx := opened_context P w url default_proxy ctx0 in
  let calls :=
    request_calls (payload_of op) ctx url headers default_proxy ssl
      keep_alive in
  exists res,
    request P op ctx0 url headers default_proxy ssl keep_alive w =
      (res, w ++ calls) /\
    failure res = NONE /\
    has_failed P res = false /\
    status res = out_status P (w ++ calls) 0 /\
    context res = ctx /\
    private_of res = private_of (new_response ctx0).
Proof.
  intros H0 Hok ctx calls. subst calls. fold ctx in Hok.
  unfold request_calls in *.
  set (prep := map snd (preparation_steps HTTPC_METHOD_GET ctx url headers
                          default_proxy ssl keep_alive)) in *.
  rewrite !all_succeed_app in Hok.
  apply andb_true_iff in Hok as [Hprep Hok].
  apply andb_true_iff in Hok as [Hbody Hexec].
  rewrite request_orchestrate. unfold orchestrate, mbind.
  rewrite setup_context_steps by assumption.
  cbn [context new_response].
  fold (opened_context P w url default_proxy ctx0). fold ctx.
  rewrite (run_steps_all_succeed P _ w Hprep). fold prep.
  cbn [prepared negb].
  set (res1 := set_context (new_response ctx0) ctx).
  destruct (attach_all_succeed P (payload_of op) res1 (w ++ prep) Hbody)
    as (res2 & Hrun & Hf & Hs & Hctx & Hp & Hr).
  rewrite Hrun. cbn [negb].
  assert (Hexec' :
    all_succeed P
      ((w ++ prep) ++ body_calls (payload_of op) (context res1))
      (executor_calls (context res2)) = true)
    by (rewrite Hctx; exact Hexec).
  rewrite (perform_request_all_succeed P res2 _ Hexec').
  rewrite Hctx, Hs. change (context res1) with ctx.
  change (status res1) with 0. rewrite <- !app_assoc.
  eexists. split; [reflexivity|].
  split; [exact Hf|]. split; [unfold has_failed; apply Hr; exact H0|].
  split; [reflexivity|]. split; [exact Hctx|]. exact Hp.
Qed.

Lemma successful_request_witness :
  R_FAILED Fake.hi 0 = false /\
  all_succeed Fake.hi []
    (request_calls (payload_of (OpPostString "x=1"))
       (opened_context Fake.hi [] Scenario.url 0 0) Scenario.url
       Scenario.accept 0 false true) = true /\
  exists res,
    request Fake.hi (OpPostString "x=1") 0 Scenario.url Scenario.accept 0
      false true [] =
      (res,
       [] ++ request_calls (payload_of (OpPostString "x=1"))
               (opened_context Fake.hi [] Scenario.url 0 0) Scenario.url
               Scenario.accept 0 false true) /\
    failure res = NONE /\
    has_failed Fake.hi res = false /\
    status res =
      out_status Fake.hi
        ([] ++ request_calls (payload_of (OpPostString "x=1"))
                 (opened_context Fake.hi [] Scenario.url 0 0) Scenario.url
                 Scenario.accept 0 false true) 0 /\
    context res = opened_context Fake.hi [] Scenario.url 0 0 /\
    private_of res = private_of (new_response 0).
Proof.
  split; [reflexivity|]. split; [reflexivity|].
  exact (successful_request Fake.hi (OpPostString "x=1") 0 Scenario.url
           Scenario.accept 0 false true [] eq_refl eq_refl).
Defined.

(** X5.  A POST or PUT with a raw body (pointer and length, vector or
    string) whose preparation succeeded and whose body the transport refuses
    returns with [failure = ADD_RAW_POST_DATA], the refusal code in
    [result], [has_failed] true and [status] 0; the refused attach call is
    the last call made, so the request is never begun. *)
Theorem raw_body_failure_skips_executor (P : httpc) (op : operation)
    (data : list u8) (len : Z) (ctx0 : httpcContext) (url : string)
    (headers : option string_map) (default_proxy : Z)
    (ssl keep_alive : bool) (w : log) (res1 : response) (w1 : log) :
  payload_of op = RawBody data len ->
  setup_context P (new_response ctx0) url (method_of op) headers
    default_proxy ssl keep_alive w = ((true, res1), w1) ->
  R_FAILED P (ret P (w1 ++ [CallAddPostDataRaw (context res1) data len]))
    = true ->
  let w2 := w1 ++ [CallAddPostDataRaw (context res1) data len] in
  let res2 := set_failure (set_result res1 (ret P w2)) ADD_RAW_POST_DATA in
  request P op ctx0 url headers default_proxy ssl keep_alive w = (res2, w2) /\
  has_failed P res2 = true /\
  status res2 = 0.
Proof.
  intros Hop Hsetup Hfail w2 res2.
  pose proof (setup_context_frame P (new_response ctx0) url (method_of op)
                headers default_proxy ssl keep_alive w) as [_ Hstatus].
  rewrite Hsetup in Hstatus. cbn [fst snd] in Hstatus.
  split; [|split; [exact Hfail | exact Hstatus]].
  rewrite request_orchestrate, Hop. unfold orchestrate, mbind.
  rewrite (setup_context_method P HTTPC_METHOD_GET (method_of op)), Hsetup.
  cbn [negb attach].
  unfold add_raw_post_data, httpcAddPostDataRaw, invoke, mret, mbind.
  rewrite Hfail. reflexivity.
Qed.

Lemma raw_body_failure_skips_executor_witness :
  payload_of (OpPutVector [x01; x02]) = RawBody [x01; x02] 2 /\
  Scenario.raw_prepared =
    ((true, snd (fst Scenario.raw_prepared)), snd Scenario.raw_prepared) /\
  R_FAILED Fake.refuse_raw
    (ret Fake.refuse_raw
       (snd Scenario.raw_prepared
        ++ [CallAddPostDataRaw (context (snd (fst Scenario.raw_prepared)))
              [x01; x02] 2])) = true /\
  request Fake.refuse_raw (OpPutVector [x01; x02]) 0 Scenario.url
    Scenario.accept 0 false true [] =
    (set_failure
       (set_result (snd (fst Scenario.raw_prepared))
          (ret Fake.refuse_raw
             (snd Scenario.raw_prepared
              ++ [CallAddPostDataRaw
                    (context (snd (fst Scenario.raw_prepared)))
                    [x01; x02] 2])))
       ADD_RAW_POST_DATA,
     snd Scenario.raw_prepared
     ++ [CallAddPostDataRaw (context (snd (fst Scenario.raw_prepared)))
           [x01; x02] 2]).
Proof.
  do 3 (split; [reflexivity|]).
  exact (proj1
    (raw_body_failure_skips_executor Fake.refuse_raw
       (OpPutVector [x01; x02]) [x01; x02] 2 0 Scenario.url Scenario.accept
       0 false true [] (snd (fst Scenario.raw_prepared))
       (snd Scenario.raw_prepared) eq_refl eq_refl eq_refl)).
Defined.

(** X6.  [add_ascii_post_params] stops at the first form field the
    transport refuses: the fields before it are attached in the order of
    the map, the refused field is the last call, the fields after it are
    never attached, and the response records [ADD_ASCII_POST_PARAM] with
    the refusal code. *)
Theorem form_fields_stop_at_first_refusal (P : httpc)
    (pre post : string_map) (k v : string) (res : response) (w : log) :
  all_succeed P w (map (field_call (context res)) pre) = true ->
  R_FAILED P
    (ret P (w ++ map (field_call (context res)) pre
            ++ [field_call (context res) (k, v)])) = true ->
  let w' :=
    w ++ map (field_call (context res)) pre
    ++ [field_call (context res) (k, v)] in
  add_ascii_post_params P res (pre ++ (k, v) :: post) w =
  ((false, set_failure (set_result res (ret P w')) ADD_ASCII_POST_PARAM),
   w').
Proof.
  intros Hpre Hfail w'. subst w'.
  now apply add_ascii_post_params_stops.
Qed.

Lemma form_fields_stop_at_first_refusal_witness :
  all_succeed Fake.refuse_b []
    (map (field_call (context (new_response 7))) [("a", "1")]) = true /\
  R_FAILED Fake.refuse_b
    (ret Fake.refuse_b
       ([] ++ map (field_call (context (new_response 7))) [("a", "1")]
        ++ [field_call (context (new_response 7)) ("b", "2")])) = true /\
  add_ascii_post_params Fake.refuse_b (new_response 7)
    ([("a", "1")] ++ ("b", "2") :: [("c", "3")]) [] =
  ((false,
    set_failure (set_result (new_response 7) (-1)) ADD_ASCII_POST_PARAM),
   [CallAddPostDataAscii 7 "a" "1"; CallAddPostDataAscii 7 "b" "2"]).
Proof.
  do 2 (split; [reflexivity|]).
  exact (form_fields_stop_at_first_refusal Fake.refuse_b [("a", "1")]
           [("c", "3")] "b" "2" (new_response 7) [] eq_refl eq_refl).
Defined.

(** X7.  The body shapes agree: a string body made of the bytes [b] is sent
    exactly as the vector [b], and the vector [b] exactly as the pointer to
    [b] with its length, for POST and for PUT (same calls, same
    response). *)
Theorem body_shapes_agree (P : httpc) (b : list u8) (ctx0 : httpcContext)
    (url : string) (headers : option string_map) (default_proxy : Z)
    (ssl keep_alive : bool) :
  post_string P ctx0 url (string_of_data b) headers default_proxy ssl
    keep_alive =
  post_vector P ctx0 url b headers default_proxy ssl keep_alive /\
  post_vector P ctx0 url b headers default_proxy ssl keep_alive =
  post P ctx0 url b (Z.of_nat (List.length b)) headers default_proxy ssl
    keep_alive /\
  put_string P ctx0 url (string_of_data b) headers default_proxy ssl
    keep_alive =
  put_vector P ctx0 url b headers default_proxy ssl keep_alive /\
  put_vector P ctx0 url b headers default_proxy ssl keep_alive =
  put P ctx0 url b (Z.of_nat (List.length b)) headers default_proxy ssl
    keep_alive.
Proof.
  unfold post_string, post_vector, put_string, put_vector.
  rewrite string_of_data_bytes, string_of_data_length.
  repeat split.
Qed.

(** X8.  The method does not reach the transport: PUT makes the calls and
    returns the response of POST for the same body, in each of the four
    body shapes, and [deleet] those of [get]. *)
Theorem put_is_post_and_delete_is_get (P : httpc) (ctx0 : httpcContext)
    (url : string) (headers : option string_map) (default_proxy : Z)
    (ssl keep_alive : bool) :
  (forall (body : list u8) (length : Z),
     put P ctx0 url body length headers default_proxy ssl keep_alive =
     post P ctx0 url body length headers default_proxy ssl keep_alive) /\
  (forall body : list u8,
     put_vector P ctx0 url body headers default_proxy ssl keep_alive =
     post_vector P ctx0 url body headers default_proxy ssl keep_alive) /\
  (forall body : string,
     put_string P ctx0 url body headers default_proxy ssl keep_alive =
     post_string P ctx0 url body headers default_proxy ssl keep_alive) /\
  (forall params : string_map,
     put_params P ctx0 url params headers default_proxy ssl keep_alive =
     post_params P ctx0 url params headers default_proxy ssl keep_alive) /\
  deleet P ctx0 url headers default_proxy ssl keep_alive =
  get P ctx0 url headers default_proxy ssl keep_alive.
Proof. repeat split. Qed.

(** X9.  A response that was never closed by hand is released exactly once
    by its destructor, whatever happened to the request: the destructor adds
    one [httpcCloseContext] on the response's context to the log, also when
    opening that context failed. *)
Theorem destructor_releases_once (P : httpc) (op : operation)
    (ctx0 : httpcContext) (url : string) (headers : option string_map)
    (default_proxy : Z) (ssl keep_alive : bool) (w : log) :
  let (res, w1) :=
    request P op ctx0 url headers default_proxy ssl keep_alive w in
  destroy P res w1 = (res, w1 ++ [CallCloseContext (context res)]) /\
  releases (context res) (snd (destroy P res w1)) =
    S (releases (context res) w1).
Proof.
  pose proof (request_private P op ctx0 url headers default_proxy ssl
                keep_alive w) as Hp.
  destruct (request P op ctx0 url headers default_proxy ssl keep_alive w)
    as [res w1].
  simpl in Hp. injection Hp as Hclosed _ _ _ _.
  unfold destroy. rewrite close_context_open by assumption.
  split; [reflexivity|]. cbn [snd].
  rewrite releases_app, releases_close. lia.
Qed.

(* ================================================================= *)
(** ** Further properties of the response class *)

(** A response that [get_body] returned answers the next [get_body] from
    its cache. *)
Lemma get_body_leaves_cache (P : httpc) (fuel : nat) (res : response)
    (w : log) (b : list u8) (res1 : response) (w1 : log) :
  get_body P fuel res w = Some (b, res1, w1) ->
  body_populated res1 || http_context_closed res1 = true.
Proof.
  unfold get_body.
  destruct (body_populated res || http_context_closed res) eqn:E.
  - now intros [= _ <- _].
  - destruct (get_body_loop P fuel res _ _ w) as [[res' w']|];
      [|discriminate].
    now intros [= _ <- _].
Qed.

(** Reading a character buffer that holds the string [v] followed by a NUL
    gives [v] up to its own first NUL. *)
Lemma string_of_c_buffer_written (v : string) (rest : list u8) :
  string_of_c_buffer (list_byte_of_string v ++ x00 :: rest) = c_str v.
Proof.
  unfold list_byte_of_string.
  induction v as [|a v IH]; cbn [list_ascii_of_string map app
                                   string_of_c_buffer c_str].
  - reflexivity.
  - rewrite ascii_of_byte_of_ascii, IH.
    destruct (Ascii.eqb a Ascii.zero) eqn:E.
    + apply Ascii.eqb_eq in E. subst a. reflexivity.
    + destruct (Byte.eqb (byte_of_ascii a) x00) eqn:B; [|reflexivity].
      apply Byte.byte_dec_bl in B.
      apply (f_equal ascii_of_byte) in B.
      rewrite ascii_of_byte_of_ascii in B. subst a. discriminate.
Qed.

(** The download loop makes one call per "download pending" answer and one
    more: with enough fuel it stops after call [k + 1] when that is the
    first answer that is not "download pending"; with fuel [k] or less it
    does not return. *)
Lemma get_body_loop_rounds (P : httpc) (k : nat) (res : response) :
  forall (fuel : nat) (buffer : list u8) (size : u32) (w : log)
         (b : list u8) (r : Result),
    let res0 := set_body (set_result res r) b in
    (forall j, (j < k)%nat ->
       ret P (w ++ repeat (download_call res) (S j)) =
       HTTPC_RESULTCODE_DOWNLOADPENDING P) ->
    ret P (w ++ repeat (download_call res) (S k)) <>
      HTTPC_RESULTCODE_DOWNLOADPENDING P ->
    ((k < fuel)%nat ->
     exists res',
       get_body_loop P fuel res0 buffer size w =
       Some (res', w ++ repeat (download_call res) (S k))) /\
    ((fuel <= k)%nat -> get_body_loop P fuel res0 buffer size w = None).
Proof.
  induction k as [|k IH]; intros fuel buffer size w b r res0 Hpend Hstop.
  - split.
    + destruct fuel as [|fuel]; [lia|]. intros _. cbn [get_body_loop].
      unfold httpcDownloadData.
      destruct (out_download P _ buffer size) as [buffer' size'].
      apply Z.eqb_neq in Hstop. cbn [repeat] in Hstop.
      unfold download_call in Hstop.
      change (context res0) with (context res). rewrite Hstop.
      now eexists.
    + intros Hle. assert (fuel = O) as -> by lia. reflexivity.
  - assert (Hfirst : ret P (w ++ [download_call res]) =
                     HTTPC_RESULTCODE_DOWNLOADPENDING P)
      by (apply (Hpend O); lia).
    assert (Hnext : forall n,
      (w ++ [download_call res]) ++ repeat (download_call res) n =
      w ++ repeat (download_call res) (S n))
      by (intros n; now rewrite <- app_assoc).
    destruct fuel as [|fuel]; [split; [lia | reflexivity]|].
    cbn [get_body_loop]. unfold httpcDownloadData.
    destruct (out_download P _ buffer size) as [buffer' size'].
    change (context res0) with (context res).
    fold (download_call res). rewrite Hfirst, Z.eqb_refl.
    specialize (IH fuel buffer' size' (w ++ [download_call res])
                  (body res0 ++ firstn (Z.to_nat size') buffer')
                  (HTTPC_RESULTCODE_DOWNLOADPENDING P)).
    cbv zeta in IH. rewrite Hnext in IH.
    assert (Hpend' : forall j, (j < k)%nat ->
      ret P ((w ++ [download_call res])
             ++ repeat (download_call res) (S j)) =
      HTTPC_RESULTCODE_DOWNLOADPENDING P)
      by (intros j Hj; rewrite Hnext; apply Hpend; lia).
    destruct (IH Hpend' Hstop) as [Hsome Hnone].
    split; intros Hfuel; [apply Hsome | apply Hnone]; lia.
Qed.

(** X10.  [get_body_string] can be repeated and mixed with [get_body]: once
    it has returned the text [s], any further [get_body_string] returns [s]
    again and any [get_body] returns the bytes of [s], in both cases
    without a transport call and without changing the response. *)
Theorem get_body_string_idempotent (P : httpc) (fuel : nat)
    (res : response) (w : log) (s : string) (res1 : response) (w1 : log) :
  http_context_closed res = false ->
  body_string_populated res = false ->
  get_body_string P fuel res w = Some (s, res1, w1) ->
  (forall fuel' : nat,
     get_body_string P fuel' res1 w1 = Some (s, res1, w1)) /\
  (forall fuel' : nat,
     get_body P fuel' res1 w1 = Some (list_byte_of_string s, res1, w1)).
Proof.
  intros Hclosed Hcached. unfold get_body_string at 1.
  rewrite Hclosed, Hcached. cbn [orb].
  destruct (get_body P fuel res w) as [[[b res'] w']|] eqn:E;
    [|discriminate].
  intros [= <- <- <-].
  pose proof (get_body_leaves_cache P fuel res w b res' w' E) as Hguard.
  apply get_body_private in E as (Hc & Hp & _ & _ & Hb).
  assert (Hbody : forall fuel',
    get_body P fuel' (set_body_string res' (string_of_data b)) w' =
    Some (b, set_body_string res' (string_of_data b), w')).
  { intros fuel'. rewrite Hb.
    exact (get_body_cached P fuel'
             (set_body_string res' (string_of_data (body res'))) w' Hguard). }
  split; intros fuel'.
  - unfold get_body_string.
    cbn [http_context_closed body_string_populated set_body_string].
    rewrite Hc, Hp, Hclosed, Hcached. cbn [orb]. rewrite Hbody. reflexivity.
  - cbn [body_string set_body_string]. rewrite string_of_data_bytes.
    apply Hbody.
Qed.

Lemma get_body_string_idempotent_witness :
  http_context_closed (fst Scenario.fetched) = false /\
  body_string_populated (fst Scenario.fetched) = false /\
  get_body_string Fake.nul_body 5 (fst Scenario.fetched)
    (snd Scenario.fetched) = Some Scenario.first_text /\
  String.length (fst (fst Scenario.first_text)) = 3%nat /\
  (forall fuel' : nat,
     get_body_string Fake.nul_body fuel' (snd (fst Scenario.first_text))
       (snd Scenario.first_text) = Some Scenario.first_text) /\
  (forall fuel' : nat,
     get_body Fake.nul_body fuel' (snd (fst Scenario.first_text))
       (snd Scenario.first_text) =
     Some (list_byte_of_string (fst (fst Scenario.first_text)),
           snd (fst Scenario.first_text), snd Scenario.first_text)).
Proof.
  do 4 (split; [reflexivity|]).
  exact (get_body_string_idempotent Fake.nul_body 5 (fst Scenario.fetched)
           (snd Scenario.fetched) (fst (fst Scenario.first_text))
           (snd (fst Scenario.first_text)) (snd Scenario.first_text)
           eq_refl eq_refl eq_refl).
Defined.

(** X11.  On an open response without a body, [get_body] downloads for as
    long as the transport answers "download pending": if the first [k]
    answers are "download pending" and answer [k + 1] is not, the call makes
    exactly [k + 1] download calls and returns, and a run cut after [k]
    rounds has not returned. *)
Theorem get_body_downloads_until_not_pending (P : httpc) (k fuel : nat)
    (res : response) (w : log) :
  http_context_closed res = false ->
  body_populated res = false ->
  (forall j, (j < k)%nat ->
     ret P (w ++ repeat (download_call res) (S j)) =
     HTTPC_RESULTCODE_DOWNLOADPENDING P) ->
  ret P (w ++ repeat (download_call res) (S k)) <>
    HTTPC_RESULTCODE_DOWNLOADPENDING P ->
  (k < fuel)%nat ->
  (exists (b : list u8) (res' : response),
     get_body P fuel res w =
     Some (b, res', w ++ repeat (download_call res) (S k))) /\
  get_body P k res w = None.
Proof.
  intros Hclosed Hpop Hpend Hstop Hfuel.
  unfold get_body. rewrite Hclosed, Hpop. cbn [orb].
  assert (Hres : set_body (set_result res (result res)) (body res) = res)
    by now destruct res.
  split.
  - destruct (get_body_loop_rounds P k res fuel
                (repeat x00 (Z.to_nat CTRQ_DOWNLOAD_BUFFER_SIZE)) 0 w
                (body res) (result res) Hpend Hstop) as [Hsome _].
    destruct (Hsome Hfuel) as [res' Hrun]. rewrite Hres in Hrun.
    rewrite Hrun. now eexists _, _.
  - destruct (get_body_loop_rounds P k res k
                (repeat x00 (Z.to_nat CTRQ_DOWNLOAD_BUFFER_SIZE)) 0 w
                (body res) (result res) Hpend Hstop) as [_ Hnone].
    rewrite Hres in Hnone. now rewrite (Hnone (le_n k)).
Qed.

Lemma get_body_downloads_until_not_pending_witness :
  http_context_closed (fst Scenario.fetched) = false /\
  body_populated (fst Scenario.fetched) = false /\
  (forall j, (j < 1)%nat ->
     ret Fake.nul_body
       (snd Scenario.fetched
        ++ repeat (download_call (fst Scenario.fetched)) (S j)) =
     HTTPC_RESULTCODE_DOWNLOADPENDING Fake.nul_body) /\
  ret Fake.nul_body
    (snd Scenario.fetched
     ++ repeat (download_call (fst Scenario.fetched)) 2) <>
    HTTPC_RESULTCODE_DOWNLOADPENDING Fake.nul_body /\
  (1 < 5)%nat /\
  (exists (b : list u8) (res' : response),
     get_body Fake.nul_body 5 (fst Scenario.fetched) (snd Scenario.fetched) =
     Some (b, res',
           snd Scenario.fetched
           ++ repeat (download_call (fst Scenario.fetched)) 2)) /\
  get_body Fake.nul_body 1 (fst Scenario.fetched) (snd Scenario.fetched) =
    None.
Proof.
  assert (Hpend : forall j, (j < 1)%nat ->
    ret Fake.nul_body
      (snd Scenario.fetched
       ++ repeat (download_call (fst Scenario.fetched)) (S j)) =
    HTTPC_RESULTCODE_DOWNLOADPENDING Fake.nul_body)
    by (intros [|j] Hj; [reflexivity | lia]).
  assert (Hstop :
    ret Fake.nul_body
      (snd Scenario.fetched
       ++ repeat (download_call (fst Scenario.fetched)) 2) <>
    HTTPC_RESULTCODE_DOWNLOADPENDING Fake.nul_body)
    by (vm_compute; discriminate).
  split; [reflexivity|]. split; [reflexivity|]. split; [exact Hpend|].
  split; [exact Hstop|]. split; [lia|].
  exact (get_body_downloads_until_not_pending Fake.nul_body 1 5
           (fst Scenario.fetched) (snd Scenario.fetched) eq_refl eq_refl
           Hpend Hstop (le_S 2 4 (le_S 2 3 (le_S 2 2 (le_n 2))))).
Defined.

(** X12.  [get_header] on an open response asks the transport once, with
    the header name and the size of its 4096-byte buffer, and returns what
    was written: when the transport leaves the string [v] and a terminating
    NUL at the start of the buffer, the result is [v] (up to a NUL of its
    own), whatever code the call returned; the response is not changed, so
    a failed header read is not recorded. *)
Theorem get_header_returns_written_value (P : httpc) (res : response)
    (header : string) (w : log) (v : string) (rest : list u8) :
  http_context_closed res = false ->
  out_header P
    (w ++ [CallGetResponseHeader (context res) (c_str header)
             CTRQ_HEADER_BUFFER_SIZE]) header_buffer =
    list_byte_of_string v ++ x00 :: rest ->
  get_header P res header w =
  ((c_str v, res),
   w ++ [CallGetResponseHeader (context res) (c_str header)
           CTRQ_HEADER_BUFFER_SIZE]).
Proof.
  intros Hclosed Hbuffer.
  unfold get_header, httpcGetResponseHeader, mret, mbind.
  rewrite Hclosed. fold header_buffer. rewrite Hbuffer.
  now rewrite string_of_c_buffer_written.
Qed.

Lemma get_header_returns_written_value_witness :
  http_context_closed (fst Scenario.fetched_header) = false /\
  out_header Fake.with_header
    (snd Scenario.fetched_header
     ++ [CallGetResponseHeader (context (fst Scenario.fetched_header))
           (c_str "Content-Type") CTRQ_HEADER_BUFFER_SIZE]) header_buffer =
    list_byte_of_string "ok" ++ x00 :: skipn 3 header_buffer /\
  get_header Fake.with_header (fst Scenario.fetched_header) "Content-Type"
    (snd Scenario.fetched_header) =
  ((c_str "ok", fst Scenario.fetched_header),
   snd Scenario.fetched_header
   ++ [CallGetResponseHeader (context (fst Scenario.fetched_header))
         (c_str "Content-Type") CTRQ_HEADER_BUFFER_SIZE]).
Proof.
  do 2 (split; [reflexivity|]).
  exact (get_header_returns_written_value Fake.with_header
           (fst Scenario.fetched_header) "Content-Type"
           (snd Scenario.fetched_header) "ok" (skipn 3 header_buffer)
           eq_refl eq_refl).
Defined.

(* ================================================================= *)
(** ** Failures of the executor *)

(** When preparation and body attachment succeed, a public operation is
    [perform_request] on a response that records nothing yet. *)
Lemma orchestrate_reaches_executor (P : httpc) (p : payload)
    (ctx0 : httpcContext) (url : string) (headers : option string_map)
    (default_proxy : Z) (ssl keep_alive : bool) (w : log) :
  R_FAILED P 0 = false ->
  let ctx := opened_context P w url default_proxy ctx0 in
  let w2 :=
    w ++ before_executor_calls p ctx url headers default_proxy ssl
           keep_alive in
  all_succeed P w
    (before_executor_calls p ctx url headers default_proxy ssl keep_alive)
    = true ->
  exists res2,
    orchestrate P p ctx0 url headers default_proxy ssl keep_alive w =
      (snd (fst (perform_request P res2 w2)), snd (perform_request P res2 w2))
    /\ failure res2 = NONE /\ status res2 = 0 /\ context res2 = ctx.
Proof.
  intros H0 ctx w2 Hok. subst w2. unfold before_executor_calls in *.
  set (prep := map snd (preparation_steps HTTPC_METHOD_GET ctx url headers
                          default_proxy ssl keep_alive)) in *.
  rewrite all_succeed_app in Hok.
  apply andb_true_iff in Hok as [Hprep Hbody].
  unfold orchestrate, mbind.
  rewrite setup_context_steps by assumption.
  cbn [context new_response].
  fold (opened_context P w url default_proxy ctx0). fold ctx.
  rewrite (run_steps_all_succeed P _ w Hprep). fold prep.
  cbn [prepared negb].
  set (res1 := set_context (new_response ctx0) ctx).
  destruct (attach_all_succeed P p res1 (w ++ prep) Hbody)
    as (res2 & Hrun & Hf & Hs & Hctx & _ & _).
  rewrite Hrun. cbn [negb]. change (context res1) with ctx.
  rewrite <- app_assoc.
  exists res2. split.
  - now destruct (perform_request P res2 _) as [[ok res3] w3].
  - split; [exact Hf|]. split; [exact Hs | exact Hctx].
Qed.

(** X13.  When preparation and the body succeed and the transport refuses
    to begin the request, the public operation returns with
    [failure = BEGIN_REQUEST], the refusal code in [result] and [status]
    0; the begin call is the last call made: the status is not asked
    for. *)
Theorem begin_request_failure_skips_status_read (P : httpc)
    (op : operation) (ctx0 : httpcContext) (url : string)
    (headers : option string_map) (default_proxy : Z)
    (ssl keep_alive : bool) (w : log) :
  R_FAILED P 0 = false ->
  all_succeed P w
    (before_executor_calls (payload_of op)
       (opened_context P w url default_proxy ctx0) url headers default_proxy
       ssl keep_alive) = true ->
  R_FAILED P
    (ret P
       ((w ++ before_executor_calls (payload_of op)
                (opened_context P w url default_proxy ctx0) url headers
                default_proxy ssl keep_alive)
        ++ [CallBeginRequest (opened_context P w url default_proxy ctx0)]))
    = true ->
  let w' :=
    (w ++ before_executor_calls (payload_of op)
            (opened_context P w url default_proxy ctx0) url headers
            default_proxy ssl keep_alive)
    ++ [CallBeginRequest (opened_context P w url default_proxy ctx0)] in
  exists res,
    request P op ctx0 url headers default_proxy ssl keep_alive w = (res, w')
    /\ failure res = BEGIN_REQUEST /\ result res = ret P w' /\
    status res = 0 /\ has_failed P res = true.
Proof.
  intros H0 Hok Hfail w'. subst w'.
  destruct (orchestrate_reaches_executor P (payload_of op) ctx0 url headers
              default_proxy ssl keep_alive w H0 Hok)
    as (res2 & Hrun & _ & Hs & Hctx).
  rewrite request_orchestrate, Hrun.
  unfold perform_request, httpcBeginRequest, httpcGetResponseStatusCode,
    invoke, _CTRQ_FALSE_IF_FAILED, mret, mbind.
  rewrite Hctx, Hfail. cbn [fst snd].
  eexists. split; [reflexivity|].
  cbn [failure result status set_result set_failure].
  unfold has_failed. cbn [result set_result]. now rewrite Hfail.
Qed.

Lemma begin_request_failure_skips_status_read_witness :
  R_FAILED Fake.refuse_begin 0 = false /\
  all_succeed Fake.refuse_begin []
    (before_executor_calls (payload_of OpGet)
       (opened_context Fake.refuse_begin [] Scenario.url 0 0) Scenario.url
       None 0 true true) = true /\
  R_FAILED Fake.refuse_begin
    (ret Fake.refuse_begin
       (([] ++ before_executor_calls (payload_of OpGet)
                 (opened_context Fake.refuse_begin [] Scenario.url 0 0)
                 Scenario.url None 0 true true)
        ++ [CallBeginRequest
              (opened_context Fake.refuse_begin [] Scenario.url 0 0)]))
    = true /\
  exists res,
    request Fake.refuse_begin OpGet 0 Scenario.url None 0 true true [] =
      (res,
       ([] ++ before_executor_calls (payload_of OpGet)
                (opened_context Fake.refuse_begin [] Scenario.url 0 0)
                Scenario.url None 0 true true)
       ++ [CallBeginRequest
             (opened_context Fake.refuse_begin [] Scenario.url 0 0)])
    /\ failure res = BEGIN_REQUEST /\
    result res =
      ret Fake.refuse_begin
        (([] ++ before_executor_calls (payload_of OpGet)
                  (opened_context Fake.refuse_begin [] Scenario.url 0 0)
                  Scenario.url None 0 true true)
         ++ [CallBeginRequest
               (opened_context Fake.refuse_begin [] Scenario.url 0 0)]) /\
    status res = 0 /\ has_failed Fake.refuse_begin res = true.
Proof.
  do 3 (split; [reflexivity|]).
  exact (begin_request_failure_skips_status_read Fake.refuse_begin OpGet 0
           Scenario.url None 0 true true [] eq_refl eq_refl eq_refl).
Defined.

(** X14.  When the request was begun and the status read fails, the public
    operation returns with [failure = GET_RESPONSE_STATUS_CODE] and the
    failure code in [result], and [status] holds what the transport left
    in the status word during the failed call: it is not reset to 0. *)
Theorem status_read_failure_keeps_written_status (P : httpc)
    (op : operation) (ctx0 : httpcContext) (url : string)
    (headers : option string_map) (default_proxy : Z)
    (ssl keep_alive : bool) (w : log) :
  R_FAILED P 0 = false ->
  all_succeed P w
    (before_executor_calls (payload_of op)
       (opened_context P w url default_proxy ctx0) url headers default_proxy
       ssl keep_alive
     ++ [CallBeginRequest (opened_context P w url default_proxy ctx0)])
    = true ->
  R_FAILED P
    (ret P
       (w ++ request_calls (payload_of op)
               (opened_context P w url default_proxy ctx0) url headers
               default_proxy ssl keep_alive)) = true ->
  let w' :=
    w ++ request_calls (payload_of op)
           (opened_context P w url default_proxy ctx0) url headers
           default_proxy ssl keep_alive in
  exists res,
    request P op ctx0 url headers default_proxy ssl keep_alive w = (res, w')
    /\ failure res = GET_RESPONSE_STATUS_CODE /\ result res = ret P w' /\
    status res = out_status P w' 0 /\ has_failed P res = true.
Proof.
  intros H0 Hok Hfail w'. subst w'.
  set (ctx := opened_context P w url default_proxy ctx0) in *.
  rewrite all_succeed_app in Hok.
  apply andb_true_iff in Hok as [Hbefore Hbegin].
  cbn [all_succeed] in Hbegin. rewrite andb_true_r in Hbegin.
  apply negb_true_iff in Hbegin.
  destruct (orchestrate_reaches_executor P (payload_of op) ctx0 url headers
              default_proxy ssl keep_alive w H0 Hbefore)
    as (res2 & Hrun & _ & Hs & Hctx).
  fold ctx in Hrun, Hctx.
  assert (Hlog :
    ((w ++ before_executor_calls (payload_of op) ctx url headers
             default_proxy ssl keep_alive)
     ++ [CallBeginRequest ctx]) ++ [CallGetResponseStatusCode ctx] =
    w ++ request_calls (payload_of op) ctx url headers default_proxy ssl
           keep_alive).
  { unfold request_calls, before_executor_calls, executor_calls.
    rewrite <- !app_assoc. reflexivity. }
  rewrite request_orchestrate, Hrun.
  unfold perform_request, httpcBeginRequest, httpcGetResponseStatusCode,
    invoke, _CTRQ_FALSE_IF_FAILED, mret, mbind.
  rewrite Hctx, Hbegin. cbn [context set_status].
  rewrite Hlog, Hfail, Hs. cbn [fst snd].
  eexists. split; [reflexivity|].
  cbn [failure result status set_result set_failure set_status].
  unfold has_failed. cbn [result set_result]. now rewrite Hfail.
Qed.

Lemma status_read_failure_keeps_written_status_witness :
  R_FAILED Fake.refuse_status 0 = false /\
  all_succeed Fake.refuse_status []
    (before_executor_calls (payload_of OpGet)
       (opened_context Fake.refuse_status [] Scenario.url 0 0) Scenario.url
       None 0 true true
     ++ [CallBeginRequest
           (opened_context Fake.refuse_status [] Scenario.url 0 0)])
    = true /\
  R_FAILED Fake.refuse_status
    (ret Fake.refuse_status
       ([] ++ request_calls (payload_of OpGet)
                (opened_context Fake.refuse_status [] Scenario.url 0 0)
                Scenario.url None 0 true true)) = true /\
  out_status Fake.refuse_status
    ([] ++ request_calls (payload_of OpGet)
             (opened_context Fake.refuse_status [] Scenario.url 0 0)
             Scenario.url None 0 true true) 0 = 503 /\
  exists res,
    request Fake.refuse_status OpGet 0 Scenario.url None 0 true true [] =
      (res,
       [] ++ request_calls (payload_of OpGet)
               (opened_context Fake.refuse_status [] Scenario.url 0 0)
               Scenario.url None 0 true true)
    /\ failure res = GET_RESPONSE_STATUS_CODE /\
    result res =
      ret Fake.refuse_status
        ([] ++ request_calls (payload_of OpGet)
                 (opened_context Fake.refuse_status [] Scenario.url 0 0)
                 Scenario.url None 0 true true) /\
    status res =
      out_status Fake.refuse_status
        ([] ++ request_calls (payload_of OpGet)
                 (opened_context Fake.refuse_status [] Scenario.url 0 0)
                 Scenario.url None 0 true true) 0 /\
    has_failed Fake.refuse_status res = true.
Proof.
  do 4 (split; [reflexivity|]).
  exact (status_read_failure_keeps_written_status Fake.refuse_status OpGet 0
           Scenario.url None 0 true true [] eq_refl eq_refl eq_refl).
Defined.
